(** * Medallion pipeline: Silver validation and Gold aggregation

    A shallow embedding of [src/lambdas/silver/silver_layer.py] and
    [src/lambdas/gold/gold_layer.py].

    Conventions of the embedding.
    - Python exceptions are values of [Py.result]; a bare [except:] is a
      [match] on [Raise _].
    - A cell of an object-dtype row is a [Py.value].
    - A binary64 number is the rational it stands for, and an operation of
      binary64 arithmetic is the exact operation followed by the rounding
      to the nearest binary64 number, ties to even ([Gold.binary64]); the
      sign of zero is not modelled. The sum of the amounts of a group is
      the exact sum rounded once (pandas adds them with a compensated
      summation).
    - An int64 is an integer: its wrap-around is not modelled.
    - [datetime.now()] is an explicit argument ([now], in nanoseconds since
      the epoch, like the instants of [Py.timestamp]).
    - Files are [option]s of their contents; paths and directories are not
      modelled.
    - pandas is modelled as in its 2.x versions.
    - The string and number parsers of pandas are parameters of the Silver
      development; every theorem holds for every parser. *)

From Stdlib Require Import ZArith QArith Qround Qabs Qpower String List Bool
  Lia Lqa.
From stdpp Require Import base option list sorting strings.

Local Open Scope string_scope.
Local Open Scope list_scope.

(** ** Python and pandas scalars *)

Module Py.

Inductive exn : Type :=
| TypeError
| ValueError
| FileNotFoundError.

Inductive result (A : Type) : Type :=
| Ok (a : A)
| Raise (e : exn).

Arguments Ok {A} a.
Arguments Raise {A} e.

Definition bind {A B} (c : result A) (k : A -> result B) : result B :=
  match c with
  | Ok a => k a
  | Raise e => Raise e
  end.

Definition raises {A} (c : result A) : Prop :=
  match c with
  | Ok _ => False
  | Raise _ => True
  end.

(** [mapM f l] runs [f] on the elements from left to right and stops at
    the first exception. *)
Fixpoint mapM {A B} (f : A -> result B) (l : list A) : result (list B) :=
  match l with
  | [] => Ok []
  | x :: l' =>
      bind (f x) (fun y => bind (mapM f l') (fun ys => Ok (y :: ys)))
  end.

(** A [pd.Timestamp]: an instant in nanoseconds since the epoch, and
    whether it carries a time zone. *)
Record timestamp : Type := Timestamp { ns : Z; tz_aware : bool }.

(** The scalars a row of the transaction frame can hold. [VNone] is
    Python's [None], [VNaN] the float [nan], [VNaT] pandas's [NaT]. *)
Inductive value : Type :=
| VNone
| VNaN
| VNaT
| VNum (q : Q)
| VStr (s : string)
| VTime (t : timestamp).

(** [pd.isna] and [pd.notna] on a scalar. *)
Definition isna (v : value) : bool :=
  match v with
  | VNone | VNaN | VNaT => true
  | VNum _ | VStr _ | VTime _ => false
  end.

Definition notna (v : value) : bool := negb (isna v).

Definition Qltb (a b : Q) : bool := negb (Qle_bool b a).

(** [v < 0]. Ordering a string, [None], [NaT] or a [Timestamp] against
    an [int] raises [TypeError]; [nan < 0] is [False]. *)
Definition lt_zero (v : value) : result bool :=
  match v with
  | VNum q => Ok (Qltb q 0)
  | VNaN => Ok false
  | VNone | VNaT | VStr _ | VTime _ => Raise TypeError
  end.

(** [v > datetime.now()], the right operand being a naive [datetime].
    [NaT] compares false with everything; a time-zone-aware [Timestamp]
    cannot be ordered against a naive one; nothing else can be ordered
    against a [datetime]. *)
Definition gt_now (v : value) (now : Z) : result bool :=
  match v with
  | VTime t => if tz_aware t then Raise TypeError else Ok (now <? ns t)%Z
  | VNaT => Ok false
  | VNone | VNaN | VNum _ | VStr _ => Raise TypeError
  end.

(** What pandas's date parser makes of a string: it raises, or it
    returns [NaT] (the empty string, ["NaT"], ...), or an instant. *)
Inductive parse_outcome : Type :=
| ParseError
| ParsedNaT
| ParsedAt (t : timestamp).

End Py.

Import Py.

Notation "'let*' x := c 'in' k" := (Py.bind c (fun x => k))
  (at level 10, x name, c at level 100, k at level 200).

(** ** Silver layer *)

Module Silver.

(** The columns of the bronze frame that the stage reads or rewrites. *)
Record record : Type := MkRecord {
  trans_num : value;
  amt : value;
  merchant : value;
  category : value;
  trans_date_trans_time : value;
  dob : value;
  lat : value;
  long : value;
  merch_lat : value;
  merch_long : value
}.

(** A row of the silver frame: the normalised columns and the three
    columns the stage adds. *)
Record silver_record : Type := SilverRecord {
  base : record;
  is_valid : bool;
  quality_issues : option string;
  _silver_processed_at : Z
}.

Record metadata : Type := Metadata {
  total_rows : nat;
  valid_rows : nat;
  invalid_rows : nat;
  processed_at : Z
}.

Section Pandas.

(** The date parser behind [pd.to_datetime] on a string that stands
    alone. *)
Variable parse_datetime : string -> parse_outcome.
(** The same parser on a string of a column. pandas takes one format for
    the whole column, from its first string, and reads every string of the
    column with it: [parse_datetime_in col s] is the instant of the string
    [s] read with the format of the column [col], and [None] when [s] does
    not match that format. *)
Variable parse_datetime_in : list value -> string -> option timestamp.
(** [pd.to_datetime] on a number (nanoseconds since the epoch); [None]
    when the number is out of bounds and pandas raises. *)
Variable datetime_of_number : Q -> option timestamp.
(** The number parser behind [pd.to_numeric] on a string; [None] when
    the string is not a number. *)
Variable parse_numeric : string -> option Q.

Definition to_datetime_str (s : string) : result value :=
  match parse_datetime s with
  | ParseError => Raise ValueError
  | ParsedNaT => Ok VNaT
  | ParsedAt t => Ok (VTime t)
  end.

Definition to_datetime_num (q : Q) : result value :=
  match datetime_of_number q with
  | Some t => Ok (VTime t)
  | None => Raise ValueError
  end.

(** [pd.to_datetime(v)] on a scalar, [errors='raise'] (the default).
    The function returns [None] when it is given [None]. *)
Definition to_datetime (v : value) : result value :=
  match v with
  | VNone => Ok VNone
  | VNaN | VNaT => Ok VNaT
  | VTime t => Ok (VTime t)
  | VStr s => to_datetime_str s
  | VNum q => to_datetime_num q
  end.

(** The body of the [try] block of [validate_transaction]: [Ok true]
    when [issues.append('future_date')] runs, [Ok false] when the block
    ends without appending, [Raise _] when it raises. *)
Definition future_check (now : Z) (v : value) : result bool :=
  let* trans_date := to_datetime v in
  gt_now trans_date now.

Definition append (issues : list string) (x : string) : list string :=
  issues ++ [x].

(** [validate_transaction(row)]; [now] is what [datetime.now()]
    returns in this call. *)
Definition validate_transaction (now : Z) (row : record)
  : result (bool * list string) :=
  let issues : list string := [] in
  let* negative := if notna (amt row) then lt_zero (amt row) else Ok false in
  let issues := if negative then append issues "negative_amount" else issues in
  let issues := if isna (amt row) then append issues "missing_amount" else issues in
  let issues := if isna (merchant row) then append issues "missing_merchant" else issues in
  let issues := if isna (category row) then append issues "missing_category" else issues in
  let issues :=
    match future_check now (trans_date_trans_time row) with
    | Ok true => append issues "future_date"
    | Ok false => issues
    | Raise _ => append issues "invalid_date"
    end in
  let is_valid := Nat.eqb (length issues) 0 in
  Ok (is_valid, issues).

(** *** The stage *)

(** [pd.to_datetime(column)] on one cell of the column [col]. In a Series
    [None] is a missing value and becomes [NaT]. A string that is no date
    on its own is none in a column, and a string that stands for a missing
    value does so under every format; a string that is a date is read with
    the format of the column and raises when it does not match it. Cells of
    the other types convert as they do alone. *)
Definition to_datetime_in (col : list value) (v : value) : result value :=
  match v with
  | VNone => Ok VNaT
  | VStr s =>
      match parse_datetime s with
      | ParseError => Raise ValueError
      | ParsedNaT => Ok VNaT
      | ParsedAt _ =>
          match parse_datetime_in col s with
          | Some t => Ok (VTime t)
          | None => Raise ValueError
          end
      end
  | VNaN | VNaT | VNum _ | VTime _ => to_datetime v
  end.

(** [pd.to_numeric(column, errors='coerce')] on one cell: whatever is
    not a number becomes [nan]. *)
Definition to_numeric_coerce (v : value) : value :=
  match v with
  | VNum q => VNum q
  | VStr s =>
      match parse_numeric s with
      | Some q => VNum q
      | None => VNaN
      end
  | VNone | VNaN | VNaT | VTime _ => VNaN
  end.

Definition set_trans_date_trans_time (v : value) (r : record) : record :=
  MkRecord (trans_num r) (amt r) (merchant r) (category r) v (dob r)
          (lat r) (long r) (merch_lat r) (merch_long r).

Definition set_dob (v : value) (r : record) : record :=
  MkRecord (trans_num r) (amt r) (merchant r) (category r)
          (trans_date_trans_time r) v
          (lat r) (long r) (merch_lat r) (merch_long r).

(** [df[c] = pd.to_datetime(df[c])]: the whole column is converted, every
    cell with the format of the column, and the first cell that does not
    convert aborts the assignment. *)
Definition assign_datetime (get : record -> value)
    (set : value -> record -> record) (df : list record)
  : result (list record) :=
  let col := map get df in
  mapM (fun r => let* v := to_datetime_in col (get r) in Ok (set v r)) df.

(** The five [pd.to_numeric(..., errors='coerce')] assignments. *)
Definition assign_numeric (r : record) : record :=
  MkRecord (trans_num r) (to_numeric_coerce (amt r)) (merchant r)
          (category r) (trans_date_trans_time r) (dob r)
          (to_numeric_coerce (lat r)) (to_numeric_coerce (long r))
          (to_numeric_coerce (merch_lat r))
          (to_numeric_coerce (merch_long r)).

(** The data type conversions of [clean_and_validate], in the order of
    the source. *)
Definition normalize_types (df : list record) : result (list record) :=
  let* df := assign_datetime trans_date_trans_time
               set_trans_date_trans_time df in
  let* df := assign_datetime dob set_dob df in
  Ok (map assign_numeric df).

(** [df.apply(validate_transaction, axis=1)]: the rows are validated in
    order, row [i] of the run reading the clock as [clock (first + i)];
    an exception of the validator leaves [apply]. On a frame without rows
    pandas does not go through the rows and what [apply] returns depends
    on its version; the model returns no results there, and the theorems
    on what the stage returns are stated for frames with a row. *)
Fixpoint apply_validate (clock : nat -> Z) (first : nat)
    (df : list record) : result (list (bool * list string)) :=
  match df with
  | [] => Ok []
  | row :: df' =>
      let* x := validate_transaction (clock first) row in
      let* xs := apply_validate clock (S first) df' in
      Ok (x :: xs)
  end.

(** [','.join(x[1]) if x[1] else None] *)
Definition join_issues (issues : list string) : option string :=
  match issues with
  | [] => None
  | _ :: _ => Some (String.concat "," issues)
  end.

(** [Series.sum()] of a boolean column, and [~column]. *)
Definition sum_bool (col : list bool) : nat :=
  fold_right (fun b n => Nat.b2n b + n) 0 col.

Definition invert (col : list bool) : list bool := map negb col.

(** The two parquet files of the stage; [None] is a file that does not
    exist. *)
Record files : Type := Files {
  bronze_file : option (list record);
  silver_file : option (list silver_record)
}.

Definition read_parquet (fs : files) : result (list record) :=
  match bronze_file fs with
  | Some df => Ok df
  | None => Raise FileNotFoundError
  end.

Definition to_parquet (df : list silver_record) (fs : files) : files :=
  Files (bronze_file fs) (Some df).

(** [clean_and_validate(bronze_path, output_path)]. [clock n] is the
    value of the [n]-th call of [datetime.now()] in the run. The result
    is the returned metadata, or the exception, and the files as the
    call leaves them. *)
Definition clean_and_validate (clock : nat -> Z) (fs : files)
  : result metadata * files :=
  let run : result (metadata * files) :=
    let* df := read_parquet fs in
    let* df := normalize_types df in
    let* validation_results := apply_validate clock 0 df in
    let stamp := clock (length df) in
    let out :=
      map (fun '(r, x) => SilverRecord r (fst x) (join_issues (snd x)) stamp)
          (zip df validation_results) in
    let fs' := to_parquet out fs in
    let valid_count := sum_bool (map is_valid out) in
    let total_count := length out in
    Ok (Metadata total_count valid_count
                 (sum_bool (invert (map is_valid out)))
                 (clock (S (length df))),
        fs') in
  match run with
  | Ok (md, fs') => (Ok md, fs')
  | Raise e => (Raise e, fs)
  end.

End Pandas.

End Silver.

(** ** Gold layer *)

Module Gold.

(** A row of the silver parquet file. The file has typed columns, so a
    cell is a value of the column's type or missing ([None]). *)
Record record : Type := MkRecord {
  cc_num : option Z;
  first : option string;
  last : option string;
  trans_num : option string;
  amt : option Q;
  is_fraud : option Z;
  trans_date_trans_time : option Z;
  merchant : option string;
  city : option string;
  state : option string;
  job : option string;
  category : option string;
  is_valid : bool
}.

(** A float64 cell of an output table: a number (the rational that the
    binary64 number stands for), an infinity or [nan]. *)
Inductive pyfloat : Type :=
| FNum (q : Q)
| FInf (negative : bool)
| FNaN.

(** *** Binary64 arithmetic *)

(** Round half to even, as [numpy.rint]. *)
Definition rint (q : Q) : Z :=
  let q := Qred q in
  let n := Qnum q in
  let d := Zpos (Qden q) in
  let f := (n / d)%Z in
  match (2 * (n mod d) ?= d)%Z with
  | Lt => f
  | Gt => (f + 1)%Z
  | Eq => if Z.even f then f else (f + 1)%Z
  end.

Definition pow2 (e : Z) : Q := (2 ^ e)%Q.

(** The integer part of the binary logarithm of [|q|], for [q] other than
    0: [2 ^ ilog2 q <= |q| < 2 ^ (ilog2 q + 1)]. *)
Definition ilog2 (q : Q) : Z :=
  let q := Qred q in
  let e := (Z.log2 (Z.abs (Qnum q)) - Z.log2 (Zpos (Qden q)))%Z in
  if Qle_bool (pow2 e) (Qabs q) then e else (e - 1)%Z.

(** The exponent of the last of the 53 bits of the binary64 numbers next
    to [q]; -1074 is the exponent of the subnormal numbers. *)
Definition exponent (q : Q) : Z := Z.max (ilog2 q - 52) (-1074).

(** The binary64 number nearest to [q], ties to the even significand,
    before the test for overflow. *)
Definition binary64 (q : Q) : Q :=
  let e := exponent q in Qred (inject_Z (rint (q / pow2 e)) * pow2 e).

(** The result of an operation whose exact value is [q]: the rounding of
    [q], or an infinity when it is beyond the largest binary64 number. *)
Definition float64 (q : Q) : pyfloat :=
  let r := binary64 q in
  if Qle_bool (pow2 1024) (Qabs r) then FInf (Qltb q 0) else FNum r.

(** An int64 as a float64; an int64 is far below the overflow threshold. *)
Definition float_of_int (n : Z) : pyfloat := FNum (binary64 (inject_Z n)).

(** [x / y] and [x * y] on float64, with the IEEE results for zeros,
    infinities and [nan]. *)
Definition divide (x y : pyfloat) : pyfloat :=
  match x, y with
  | FNaN, _ | _, FNaN => FNaN
  | FInf _, FInf _ => FNaN
  | FInf s, FNum q => FInf (xorb s (Qltb q 0))
  | FNum _, FInf _ => FNum 0
  | FNum p, FNum q =>
      if Qeq_bool q 0 then
        if Qeq_bool p 0 then FNaN else FInf (Qltb p 0)
      else float64 (p / q)
  end.

Definition multiply (x y : pyfloat) : pyfloat :=
  match x, y with
  | FNaN, _ | _, FNaN => FNaN
  | FInf s, FInf t => FInf (xorb s t)
  | FInf s, FNum q | FNum q, FInf s =>
      if Qeq_bool q 0 then FNaN else FInf (xorb s (Qltb q 0))
  | FNum p, FNum q => float64 (p * q)
  end.

(** [numpy.rint] on a float64. *)
Definition np_rint (x : pyfloat) : pyfloat :=
  match x with
  | FNum q => FNum (inject_Z (rint q))
  | FInf s => FInf s
  | FNaN => FNaN
  end.

(** *** Column reductions (missing values are skipped) *)

Definition present {A} (col : list (option A)) : list A := omap id col.

Definition count {A} (col : list (option A)) : Z :=
  Z.of_nat (length (present col)).

Definition sum_int (col : list (option Z)) : Z :=
  fold_right Z.add 0%Z (present col).

Definition sum_float (col : list (option Q)) : pyfloat :=
  float64 (fold_right Qplus 0%Q (present col)).

Definition mean (col : list (option Q)) : pyfloat :=
  match present col with
  | [] => FNaN
  | _ :: _ =>
      float64 (fold_right Qplus 0%Q (present col) / inject_Z (count col))
  end.

Definition Qle_b (a b : Q) : Prop := Is_true (Qle_bool a b).

Definition median (col : list (option Q)) : pyfloat :=
  let sorted := merge_sort Qle_b (present col) in
  let n := length sorted in
  match n with
  | O => FNaN
  | S _ =>
      if Nat.odd n then float64 (nth (n / 2) sorted 0%Q)
      else float64 ((nth (n / 2 - 1) sorted 0%Q + nth (n / 2) sorted 0%Q) / 2)
  end.

Definition nunique {A} `{EqDecision A} (col : list (option A)) : Z :=
  Z.of_nat (length (remove_dups (present col))).

Definition first_valid {A} (col : list (option A)) : option A :=
  head (present col).

Definition min_date (col : list (option Z)) : option Z :=
  match present col with
  | [] => None
  | t :: ts => Some (fold_right Z.min t ts)
  end.

Definition max_date (col : list (option Z)) : option Z :=
  match present col with
  | [] => None
  | t :: ts => Some (fold_right Z.max t ts)
  end.

(** *** Element-wise arithmetic *)

(** [a / b] on two int64 columns: both are converted to float64 and
    divided. *)
Definition true_divide (a b : Z) : pyfloat :=
  divide (float_of_int a) (float_of_int b).

(** [x * 100] *)
Definition times_100 (x : pyfloat) : pyfloat := multiply x (FNum 100).

(** [x.round(2)], which numpy computes as [rint(x * 100) / 100] in
    float64. *)
Definition round_2 (x : pyfloat) : pyfloat :=
  divide (np_rint (multiply x (FNum 100))) (FNum 100).

Definition ns_per_day : Z := 86400000000000.

(** [(last - first).dt.days] *)
Definition days_between (first_date last_date : option Z) : option Z :=
  match first_date, last_date with
  | Some a, Some b => Some ((b - a) / ns_per_day)%Z
  | _, _ => None
  end.

(** *** [groupby] *)

Definition string_le (a b : string) : Prop := Is_true (String.leb a b).

(** The order of the keys [(customer_id, full_name)]. *)
Definition customer_key_le (a b : Z * string) : Prop :=
  (a.1 < b.1)%Z ∨ (a.1 = b.1 ∧ string_le a.2 b.2).

#[global] Instance customer_key_le_dec a b : Decision (customer_key_le a b).
Proof. unfold customer_key_le, string_le. apply _. Defined.

#[global] Instance string_le_dec a b : Decision (string_le a b).
Proof. unfold string_le. apply _. Defined.

#[global] Instance Qle_b_dec a b : Decision (Qle_b a b).
Proof. unfold Qle_b. apply _. Defined.

(** [df.groupby(key)]: one group for every key that occurs, in the order
    of the keys; rows whose key is missing belong to no group; a group
    keeps its rows in the order of the frame. *)
Definition groupby {K} `{EqDecision K} (le : relation K)
    `{∀ x y, Decision (le x y)} (key : record -> option K)
    (df : list record) : list (K * list record) :=
  map (fun k => (k, filter (fun r => key r = Some k) df))
      (merge_sort le (remove_dups (omap key df))).

(** *** Customer summary *)

Module Customer.
Record row : Type := Row {
  customer_id : Z;
  full_name : string;
  total_transactions : Z;
  total_spend : pyfloat;
  avg_transaction : pyfloat;
  median_transaction : pyfloat;
  fraud_count : Z;
  first_transaction_date : option Z;
  last_transaction_date : option Z;
  unique_merchants : Z;
  city : option string;
  state : option string;
  job : option string;
  fraud_rate : pyfloat;
  customer_lifetime_days : option Z
}.
End Customer.

(** [df['first'] + ' ' + df['last']]: missing when either part is. *)
Definition full_name_of (r : record) : option string :=
  match first r, last r with
  | Some f, Some l => Some (f ++ " " ++ l)%string
  | _, _ => None
  end.

Definition customer_key (r : record) : option (Z * string) :=
  match cc_num r, full_name_of r with
  | Some c, Some n => Some (c, n)
  | _, _ => None
  end.

(** [(fraud_count / total_transactions * 100).round(2)] *)
Definition fraud_rate_of (fraud_count total_transactions : Z) : pyfloat :=
  round_2 (times_100 (true_divide fraud_count total_transactions)).

Definition customer_row (k : Z * string) (g : list record) : Customer.row :=
  let total_transactions := count (map trans_num g) in
  let total_spend := sum_float (map amt g) in
  let avg_transaction := mean (map amt g) in
  let median_transaction := median (map amt g) in
  let fraud_count := sum_int (map is_fraud g) in
  let first_transaction_date := min_date (map trans_date_trans_time g) in
  let last_transaction_date := max_date (map trans_date_trans_time g) in
  Customer.Row k.1 k.2 total_transactions
    (round_2 total_spend) (round_2 avg_transaction)
    (round_2 median_transaction)
    fraud_count first_transaction_date last_transaction_date
    (nunique (map merchant g))
    (first_valid (map city g)) (first_valid (map state g))
    (first_valid (map job g))
    (fraud_rate_of fraud_count total_transactions)
    (days_between first_transaction_date last_transaction_date).

(** [create_customer_summary(df)]. The two columns the function adds to
    its argument ([customer_id], [full_name]) are the components of
    [customer_key]; nothing else reads them. *)
Definition create_customer_summary (df : list record) : list Customer.row :=
  map (fun kg => customer_row kg.1 kg.2)
      (groupby customer_key_le customer_key df).

(** *** Merchant category analysis *)

Module Category.
Record row : Type := Row {
  category : string;
  total_transactions : Z;
  total_amount : pyfloat;
  avg_amount : pyfloat;
  median_amount : pyfloat;
  fraud_count : Z;
  unique_customers : Z;
  unique_merchants : Z;
  fraud_rate : pyfloat
}.
End Category.

Definition category_row (k : string) (g : list record) : Category.row :=
  let total_transactions := count (map trans_num g) in
  let fraud_count := sum_int (map is_fraud g) in
  Category.Row k total_transactions
    (round_2 (sum_float (map amt g)))
    (round_2 (mean (map amt g)))
    (round_2 (median (map amt g)))
    fraud_count
    (nunique (map cc_num g))
    (nunique (map merchant g))
    (fraud_rate_of fraud_count total_transactions).

(** The order of [sort_values('total_transactions', ascending=False)].
    pandas leaves the relative order of rows with equal counts
    unspecified; here they keep the order of the groups. *)
Definition volume_ge (a b : Category.row) : Prop :=
  (Category.total_transactions b <= Category.total_transactions a)%Z.

#[global] Instance volume_ge_dec a b : Decision (volume_ge a b).
Proof. unfold volume_ge. apply _. Defined.

Definition sort_values_desc (t : list Category.row) : list Category.row :=
  merge_sort volume_ge t.

Definition create_merchant_category_analysis (df : list record)
  : list Category.row :=
  sort_values_desc
    (map (fun kg => category_row kg.1 kg.2) (groupby string_le category df)).

(** *** The stage *)

Record metadata : Type := Metadata {
  source_rows : nat;
  valid_rows_used : nat;
  customers : nat;
  categories : nat;
  created_at : Z
}.

(** The silver file the stage reads and the two tables it writes;
    [None] is a file that does not exist. *)
Record files : Type := Files {
  silver_file : option (list record);
  customer_summary_file : option (list Customer.row);
  category_analysis_file : option (list Category.row)
}.

Definition read_parquet (fs : files) : result (list record) :=
  match silver_file fs with
  | Some df => Ok df
  | None => Raise FileNotFoundError
  end.

(** [create_analytical_tables(silver_path, output_dir)]; [now] is the
    value of [datetime.now()] when the metadata is built. The result is
    the returned metadata, or the exception, and the files as the call
    leaves them. *)
Definition create_analytical_tables (now : Z) (fs : files)
  : result metadata * files :=
  match read_parquet fs with
  | Raise e => (Raise e, fs)
  | Ok df =>
      let df_valid := filter (fun r => is_valid r = true) df in
      let customer_summary := create_customer_summary df_valid in
      let category_analysis := create_merchant_category_analysis df_valid in
      let fs := Files (silver_file fs) (Some customer_summary)
                      (category_analysis_file fs) in
      let fs := Files (silver_file fs) (customer_summary_file fs)
                      (Some category_analysis) in
      (Ok (Metadata (length df) (length df_valid)
                    (length customer_summary) (length category_analysis)
                    now),
       fs)
  end.

End Gold.

(** ** Insights *)

Module Insights.

(** [a >= b] on float64 cells, with [nan] below everything: the order in
    which [nlargest] ranks the rows. *)
Definition rate_geb (a b : Gold.pyfloat) : bool :=
  match a, b with
  | _, Gold.FNaN => true
  | Gold.FNaN, _ => false
  | Gold.FInf false, _ => true
  | _, Gold.FInf true => true
  | Gold.FInf true, _ => false
  | Gold.FNum _, Gold.FInf false => false
  | Gold.FNum p, Gold.FNum q => Qle_bool q p
  end.

Definition riskier (a b : Gold.Category.row) : Prop :=
  Is_true (rate_geb (Gold.Category.fraud_rate a) (Gold.Category.fraud_rate b)).

#[global] Instance riskier_dec a b : Decision (riskier a b).
Proof. unfold riskier. apply _. Defined.

(** [table.nlargest(n, 'fraud_rate')]: the [n] rows with the largest rate,
    largest first; of rows with equal rates the earlier one comes first,
    and rows without a rate come last. *)
Definition nlargest (n : nat) (table : list Gold.Category.row)
  : list Gold.Category.row :=
  take n (merge_sort riskier table).

(** [Series.sum()] of an integer column. *)
Definition column_sum (col : list Z) : Z := fold_right Z.add 0%Z col.

(** A line of the ranking: category, fraud_rate, fraud_count and
    total_transactions. *)
Definition ranking_line (row : Gold.Category.row)
  : string * Gold.pyfloat * Z * Z :=
  (Gold.Category.category row, Gold.Category.fraud_rate row,
   Gold.Category.fraud_count row, Gold.Category.total_transactions row).

(** What the function returns (the path of the report left out). *)
Record insights : Type := MkInsights {
  total_customers : nat;
  total_transactions : Z;
  fraud_rate : Gold.pyfloat
}.

(** The data the text of [insights_report.txt] is made of. *)
Record report : Type := Report {
  high_fraud : list (string * Gold.pyfloat * Z * Z);
  key_metrics : insights
}.

(** The gold directory: the two tables and the report. *)
Record files : Type := Files {
  tables : Gold.files;
  insights_report : option report
}.

(** [generate_insights(gold_dir)]. The result is the returned insights, or
    the exception, and the files as the call leaves them; what the
    function prints is left out. *)
Definition generate_insights (fs : files) : result insights * files :=
  match Gold.customer_summary_file (tables fs) with
  | None => (Raise FileNotFoundError, fs)
  | Some customer_summary =>
      match Gold.category_analysis_file (tables fs) with
      | None => (Raise FileNotFoundError, fs)
      | Some category_analysis =>
          let high_fraud := map ranking_line (nlargest 5 category_analysis) in
          let total_customers := length customer_summary in
          let total_transactions :=
            column_sum (map Gold.Category.total_transactions category_analysis) in
          let total_fraud :=
            column_sum (map Gold.Category.fraud_count category_analysis) in
          let overall_fraud_rate :=
            Gold.times_100 (Gold.true_divide total_fraud total_transactions) in
          let result :=
            MkInsights total_customers total_transactions overall_fraud_rate in
          (Ok result, Files (tables fs) (Some (Report high_fraud result)))
      end
  end.

End Insights.

(** ** The rule set of the validator, as the specification words it *)

Module Rules.

Inductive rule : Type :=
| NegativeAmount
| MissingAmount
| MissingMerchant
| MissingCategory
| FutureDate
| InvalidDate.

Definition name (ru : rule) : string :=
  match ru with
  | NegativeAmount => "negative_amount"
  | MissingAmount => "missing_amount"
  | MissingMerchant => "missing_merchant"
  | MissingCategory => "missing_category"
  | FutureDate => "future_date"
  | InvalidDate => "invalid_date"
  end.

(** The fixed order of evaluation. *)
Definition order : list rule :=
  [NegativeAmount; MissingAmount; MissingMerchant; MissingCategory;
   FutureDate; InvalidDate].

(** The amounts the type normalisation of the stage produces. *)
Definition numeric_or_absent (v : value) : Prop :=
  isna v = true ∨ ∃ q, v = VNum q.

Section Pandas.

Variable parse_datetime : string -> parse_outcome.
Variable datetime_of_number : Q -> option timestamp.

Local Abbreviation to_datetime :=
  (Silver.to_datetime parse_datetime datetime_of_number).

(** The wording of the specification: the timestamp is present and parses
    to a time strictly after [now]; the timestamp cannot be parsed at
    all. *)
Definition parses_later (now : Z) (v : value) : Prop :=
  isna v = false ∧ ∃ t, to_datetime v = Ok (VTime t) ∧ (now < ns t)%Z.

Definition unparseable (v : value) : Prop := raises (to_datetime v).

(** What the validator tests: the timestamp converts to a naive instant
    strictly after [now]. *)
Definition in_future (now : Z) (v : value) : Prop :=
  ∃ t, to_datetime v = Ok (VTime t) ∧ tz_aware t = false ∧ (now < ns t)%Z.

(** The timestamp converts to a naive instant that is not after [now]. *)
Definition not_after (now : Z) (v : value) : Prop :=
  ∃ t, to_datetime v = Ok (VTime t) ∧ tz_aware t = false ∧ (ns t <= now)%Z.

(** The timestamp cannot be compared with the current time: it does not
    convert, or it is Python's [None], which converts to itself, or it
    converts to an instant with a time zone. *)
Definition uninterpretable (v : value) : Prop :=
  raises (to_datetime v) ∨ to_datetime v = Ok VNone ∨
  ∃ t, to_datetime v = Ok (VTime t) ∧ tz_aware t = true.

Definition in_futureb (now : Z) (v : value) : bool :=
  match to_datetime v with
  | Ok (VTime t) => negb (tz_aware t) && (now <? ns t)%Z
  | _ => false
  end.

Definition uninterpretableb (v : value) : bool :=
  match to_datetime v with
  | Raise _ => true
  | Ok (VTime t) => tz_aware t
  | Ok VNaT => false
  | Ok (VNone | VNaN | VNum _ | VStr _) => true
  end.

(** When a rule applies to a record. *)
Definition violates (now : Z) (r : Silver.record) (ru : rule) : bool :=
  match ru with
  | NegativeAmount =>
      match Silver.amt r with
      | VNum q => Qltb q 0
      | _ => false
      end
  | MissingAmount => isna (Silver.amt r)
  | MissingMerchant => isna (Silver.merchant r)
  | MissingCategory => isna (Silver.category r)
  | FutureDate => in_futureb now (Silver.trans_date_trans_time r)
  | InvalidDate => uninterpretableb (Silver.trans_date_trans_time r)
  end.

(** Every applicable violation, in the fixed order. *)
Definition violations (now : Z) (r : Silver.record) : list string :=
  map name (List.filter (violates now r) order).

End Pandas.

End Rules.

(** ** The fraud rate, as the specification words it *)

Module Rates.

(** [x] rounded to two decimals as a number, half to even. *)
Definition round2 (x : Q) : Q := Qred (inject_Z (Gold.rint (x * 100)) / 100).

(** The fraud rate of a row with the given counts, in the words of the
    specification: 100 × fraud_count / total_transactions rounded to two
    decimals. *)
Definition fraud_rate_spec (fraud_count total_transactions : Z) : Q :=
  round2 (100 * inject_Z fraud_count / inject_Z total_transactions).

(** A record with a transaction id and a fraud flag that is 0 or 1. *)
Definition clean (r : Gold.record) : Prop :=
  is_Some (Gold.trans_num r) ∧
  (Gold.is_fraud r = Some 0%Z ∨ Gold.is_fraud r = Some 1%Z).

(** What a row says about fraud: the counts are consistent, and the rate
    is the binary64 number nearest to a number [k / 100] of two decimals
    that is 100 × fraud_count / total_transactions rounded to two decimals
    up to the rounding error of the arithmetic, a percentage. *)
Definition sound_rate (total_transactions fraud_count : Z)
    (fraud_rate : Gold.pyfloat) : Prop :=
  (1 <= total_transactions)%Z ∧
  (0 <= fraud_count <= total_transactions)%Z ∧
  ∃ k : Z,
    fraud_rate = Gold.FNum (Gold.binary64 (inject_Z k / 100)) ∧
    (0 <= k <= 10000)%Z ∧
    (Qabs (inject_Z k / 100
           - 100 * inject_Z fraud_count / inject_Z total_transactions)
     <= (1 # 200) + (1 # 1000000000000))%Q ∧
    (0 <= Gold.binary64 (inject_Z k / 100) <= 100)%Q.

End Rates.

(** ** Closed instances for examples

    A date parser, a number converter and a number parser that know the
    strings of the fixture of [tests/unit/test_silver_layer.py]. *)

Module Fixture.

Definition dates : list (string * Z) :=
  [("2024-01-01 10:00:00", 1704103200); ("2024-01-02 11:00:00", 1704193200);
   ("2024-01-03 12:00:00", 1704283200); ("2024-01-04 13:00:00", 1704373200);
   ("1990-01-01", 631152000); ("1985-05-15", 484963200);
   ("1992-08-20", 714268800); ("1988-03-10", 573955200)]%Z.

Fixpoint assoc {A} (s : string) (table : list (string * A)) : option A :=
  match table with
  | [] => None
  | (k, v) :: table' => if String.eqb s k then Some v else assoc s table'
  end.

Definition parse_datetime (s : string) : parse_outcome :=
  if String.eqb s "" then ParsedNaT
  else match assoc s dates with
       | Some seconds => ParsedAt (Timestamp (seconds * 1000000000) false)
       | None => ParseError
       end.

(** The strings of the fixture have two formats, which their lengths tell
    apart; the format of a column is that of its first string that is not
    empty. *)
Fixpoint first_string (col : list value) : option string :=
  match col with
  | [] => None
  | VStr s :: col' => if String.eqb s "" then first_string col' else Some s
  | _ :: col' => first_string col'
  end.

Definition parse_datetime_in (col : list value) (s : string)
  : option timestamp :=
  match first_string col, parse_datetime s with
  | Some s0, ParsedAt t =>
      if Nat.eqb (String.length s) (String.length s0) then Some t else None
  | _, _ => None
  end.

Definition datetime_of_number (q : Q) : option timestamp :=
  Some (Timestamp (Qfloor q) false).

Definition parse_numeric (s : string) : option Q :=
  assoc s [("100.50", 201 # 2); ("-50.00", -50 # 1); ("200.00", 200 # 1)]%Q.

Definition row (amt merchant category time dob : value) : Silver.record :=
  Silver.MkRecord (VStr "trans") amt merchant category time dob
                 (VNum (407128 # 10000)) (VNum (-740060 # 10000))
                 (VNum (407130 # 10000)) (VNum (-740065 # 10000)).

(** The bronze frame of the fixture. *)
Definition bronze : list Silver.record :=
  [row (VNum (201 # 2)) (VStr "Store A") (VStr "shopping_pos")
       (VStr "2024-01-01 10:00:00") (VStr "1990-01-01");
   row (VNum (-50)) (VStr "Store B") (VStr "grocery_pos")
       (VStr "2024-01-02 11:00:00") (VStr "1985-05-15");
   row (VNum 200) VNone (VStr "gas_transport")
       (VStr "2024-01-03 12:00:00") (VStr "1992-08-20");
   row VNaN (VStr "Store D") (VStr "misc_net")
       (VStr "2024-01-04 13:00:00") (VStr "1988-03-10")].

(** A bronze row whose transaction timestamp is not a date. *)
Definition undated : Silver.record :=
  row (VNum 10) (VStr "Store A") (VStr "misc_net") (VStr "not a date")
      (VStr "1990-01-01").

(** A clock that starts on 2026-01-01 and advances by a millisecond at
    every reading. *)
Definition clock (n : nat) : Z :=
  (1767225600000000000 + 1000000 * Z.of_nat n)%Z.

(** The rows of the validator tests: a record of "Test Store". *)
Definition test_store (amt time : value) : Silver.record :=
  row amt (VStr "Test Store") (VStr "shopping_pos") time VNone.

Definition yesterday : value :=
  VTime (Timestamp (clock 0 - Gold.ns_per_day) false).

Definition tomorrow : value :=
  VTime (Timestamp (clock 0 + Gold.ns_per_day) false).

(** The same instant as [tomorrow], with a time zone. *)
Definition tomorrow_utc : value :=
  VTime (Timestamp (clock 0 + Gold.ns_per_day) true).

(** A bronze frame whose timestamps are dates of the fixture in two
    formats. *)
Definition two_formats : list Silver.record :=
  [row (VNum 10) (VStr "Store A") (VStr "misc_net")
       (VStr "2024-01-01 10:00:00") (VStr "1990-01-01");
   row (VNum 20) (VStr "Store B") (VStr "misc_net")
       (VStr "1990-01-01") (VStr "1990-01-01")].

Definition no_amount_no_merchant : Silver.record :=
  row VNone VNone (VStr "shopping_pos") yesterday VNone.

Definition gold_row (cc : Z) (first last trans : string) (amt : Q) (fraud : Z)
    (day : Z) (merchant category : string) : Gold.record :=
  Gold.MkRecord (Some cc) (Some first) (Some last) (Some trans) (Some amt)
               (Some fraud) (Some (day * Gold.ns_per_day)%Z) (Some merchant)
               None None None (Some category) true.

(** A record that passed validation and is flagged as fraud, but has no
    transaction id. *)
Definition untracked : Gold.record :=
  Gold.MkRecord (Some 4444%Z) (Some "Ann") (Some "Lee") None (Some 20%Q)
                (Some 1%Z) (Some 0%Z) (Some "Store E") None None None
                (Some "misc_net") true.

(** The records of one customer and one category: 23 flagged as fraud, 137
    that are not. *)
Definition busy : list Gold.record :=
  replicate 23 (gold_row 6666 "Eve" "Poe" "t" 10 1 0 "Store G" "travel")
  ++ replicate 137 (gold_row 6666 "Eve" "Poe" "t" 10 0 0 "Store G" "travel").

(** A record that failed validation. *)
Definition rejected : Gold.record :=
  Gold.MkRecord (Some 5555%Z) (Some "Max") (Some "Roe") (Some "t9") None
                (Some 0%Z) (Some 0%Z) (Some "Store F") None None None
                (Some "misc_net") false.

(** The silver frame of the fixture of [tests/unit/test_gold_layer.py]
    (days counted from 2024-01-01). *)
Definition silver : list Gold.record :=
  [gold_row 1111 "John" "Doe" "t1" 100 0 0 "Store A" "shopping_pos";
   gold_row 1111 "John" "Doe" "t2" 50 1 9 "Store B" "grocery_pos";
   gold_row 2222 "Jane" "Smith" "t3" 200 0 4 "Store C" "gas_transport";
   gold_row 2222 "Jane" "Smith" "t4" 150 0 14 "Store A" "shopping_pos";
   gold_row 3333 "Bob" "Johnson" "t5" 75 1 19 "Store D" "misc_net"].

End Fixture.

(** ** The normal form of a silver row *)

Module Normal.

(** A numeric cell after [errors='coerce']. *)
Definition number_or_nan (v : value) : Prop := v = VNaN ∨ ∃ q, v = VNum q.

(** A date cell after [pd.to_datetime]. *)
Definition instant_or_nat (v : value) : Prop := v = VNaT ∨ ∃ t, v = VTime t.

(** A row whose seven converted columns have their converted form. *)
Definition normalised (r : Silver.record) : Prop :=
  instant_or_nat (Silver.trans_date_trans_time r) ∧
  instant_or_nat (Silver.dob r) ∧
  number_or_nan (Silver.amt r) ∧
  number_or_nan (Silver.lat r) ∧ number_or_nan (Silver.long r) ∧
  number_or_nan (Silver.merch_lat r) ∧ number_or_nan (Silver.merch_long r).

Section Pandas.

Variable parse_datetime : string -> parse_outcome.
Variable datetime_of_number : Q -> option timestamp.

(** The timestamp raises no date issue at [now]: it converts to [NaT], or
    to a naive instant that is not after [now]. *)
Definition on_time (now : Z) (v : value) : Prop :=
  Silver.to_datetime parse_datetime datetime_of_number v = Ok VNaT ∨
  Rules.not_after parse_datetime datetime_of_number now v.

(** The record breaks no rule at [now]. *)
Definition acceptable (now : Z) (r : Silver.record) : Prop :=
  (∃ q, Silver.amt r = VNum q ∧ (0 <= q)%Q) ∧
  isna (Silver.merchant r) = false ∧
  isna (Silver.category r) = false ∧
  on_time now (Silver.trans_date_trans_time r).

Variable parse_datetime_in : list value -> string -> option timestamp.
Variable parse_numeric : string -> option Q.

(** How a row of the normalised frame comes from its bronze row, [times]
    and [dobs] being the two date columns of the bronze frame. *)
Definition converted (times dobs : list value) (r r' : Silver.record) : Prop :=
  Silver.trans_num r' = Silver.trans_num r ∧
  Silver.merchant r' = Silver.merchant r ∧
  Silver.category r' = Silver.category r ∧
  Silver.to_datetime_in parse_datetime parse_datetime_in datetime_of_number
    times (Silver.trans_date_trans_time r)
  = Ok (Silver.trans_date_trans_time r') ∧
  Silver.to_datetime_in parse_datetime parse_datetime_in datetime_of_number
    dobs (Silver.dob r)
  = Ok (Silver.dob r') ∧
  Silver.amt r' = Silver.to_numeric_coerce parse_numeric (Silver.amt r) ∧
  Silver.lat r' = Silver.to_numeric_coerce parse_numeric (Silver.lat r) ∧
  Silver.long r' = Silver.to_numeric_coerce parse_numeric (Silver.long r) ∧
  Silver.merch_lat r'
  = Silver.to_numeric_coerce parse_numeric (Silver.merch_lat r) ∧
  Silver.merch_long r'
  = Silver.to_numeric_coerce parse_numeric (Silver.merch_long r).

End Pandas.

End Normal.

(** ** Facts about the record validator *)

Module SilverFacts.

Import Silver Rules.

Section Validator.

Variable parse_datetime : string -> parse_outcome.
Variable datetime_of_number : Q -> option timestamp.

Local Abbreviation to_datetime :=
  (Silver.to_datetime parse_datetime datetime_of_number).
Local Abbreviation future_check :=
  (Silver.future_check parse_datetime datetime_of_number).
Local Abbreviation validate_transaction :=
  (Silver.validate_transaction parse_datetime datetime_of_number).
Local Abbreviation in_future := (Rules.in_future parse_datetime datetime_of_number).
Local Abbreviation not_after := (Rules.not_after parse_datetime datetime_of_number).
Local Abbreviation uninterpretable :=
  (Rules.uninterpretable parse_datetime datetime_of_number).
Local Abbreviation violations :=
  (Rules.violations parse_datetime datetime_of_number).

(** The three outcomes of the [try] block, in terms of the timestamp. *)
Lemma future_check_true now v : future_check now v = Ok true ↔ in_future now v.
Proof.
  unfold Silver.future_check, Rules.in_future. split.
  - destruct (to_datetime v) as [w|e] eqn:E; simpl; [|discriminate].
    destruct w as [| | | |?|t]; simpl; try discriminate.
    destruct (tz_aware t) eqn:Etz; [discriminate|].
    intros [= H]. exists t. repeat split; trivial. lia.
  - intros (t & -> & Htz & Hlt). simpl. rewrite Htz. f_equal. lia.
Qed.

Lemma future_check_raise now v :
  raises (future_check now v) ↔ uninterpretable v.
Proof.
  unfold Silver.future_check, Rules.uninterpretable.
  destruct (to_datetime v) as [w|e] eqn:E; simpl.
  - destruct w as [| | |q|s|t]; simpl.
    + split; [intros _; right; left; reflexivity | tauto].
    + exfalso. destruct v as [| | |q|s|t]; simpl in E; try discriminate.
      * unfold to_datetime_num in E. destruct (datetime_of_number q); discriminate.
      * unfold to_datetime_str in E. destruct (parse_datetime s); discriminate.
    + split; [tauto|]. intros [[]|[H|(t & H & _)]]; discriminate.
    + exfalso. destruct v as [| | |q'|s|t]; simpl in E; try discriminate.
      * unfold to_datetime_num in E. destruct (datetime_of_number q'); discriminate.
      * unfold to_datetime_str in E. destruct (parse_datetime s); discriminate.
    + exfalso. destruct v as [| | |q|s'|t]; simpl in E; try discriminate.
      * unfold to_datetime_num in E. destruct (datetime_of_number q); discriminate.
      * unfold to_datetime_str in E. destruct (parse_datetime s'); discriminate.
    + destruct (tz_aware t) eqn:Etz; simpl.
      * split; [intros _; right; right; exists t; split; trivial | tauto].
      * split; [tauto|]. intros [[]|[H|(t' & [= <-] & H)]]; congruence.
  - split; [intros _; left; exact I | tauto].
Qed.

Lemma in_futureb_check now v :
  Rules.in_futureb parse_datetime datetime_of_number now v
  = match future_check now v with Ok true => true | _ => false end.
Proof.
  unfold Rules.in_futureb, Silver.future_check.
  destruct (to_datetime v) as [[| | | |?|t]|e]; simpl; trivial.
  destruct (tz_aware t); simpl; trivial. destruct (now <? ns t)%Z; trivial.
Qed.

Lemma uninterpretableb_check now v :
  Rules.uninterpretableb parse_datetime datetime_of_number v
  = match future_check now v with Raise _ => true | _ => false end.
Proof.
  unfold Rules.uninterpretableb, Silver.future_check.
  destruct (to_datetime v) as [[| | | |?|t]|e]; simpl; trivial.
  destruct (tz_aware t); simpl; trivial.
Qed.

(** The validator returns on every amount that is a number or missing: the
    only statement outside the [try] block that can raise is [amt < 0]. *)
Lemma validate_transaction_returns now r :
  numeric_or_absent (amt r) →
  ∃ b issues, validate_transaction now r = Ok (b, issues).
Proof.
  unfold Silver.validate_transaction.
  intros [Hna|[q Hq]].
  - unfold notna. rewrite Hna. simpl. eauto.
  - rewrite Hq. simpl. eauto.
Qed.

(** What the validator returns is the list of the violated rules. *)
Lemma validate_transaction_violations now r b issues :
  validate_transaction now r = Ok (b, issues) →
  issues = violations now r ∧ b = Nat.eqb (length issues) 0.
Proof.
  unfold Silver.validate_transaction, Rules.violations, Rules.order.
  cbn [List.filter Rules.violates].
  rewrite (in_futureb_check now), (uninterpretableb_check now).
  destruct (future_check now (trans_date_trans_time r)) as [[|]|e];
    destruct (amt r) as [| | |q|s|t]; simpl; try discriminate;
    try destruct (Qltb q 0); simpl;
    destruct (isna (merchant r)), (isna (category r)); simpl;
    intros [= <- <-]; split; reflexivity.
Qed.

Lemma name_inj ru1 ru2 : name ru1 = name ru2 → ru1 = ru2.
Proof. destruct ru1, ru2; simpl; intros H; try reflexivity; discriminate H. Qed.

Lemma elem_of_violations now r ru :
  name ru ∈ violations now r ↔ Rules.violates parse_datetime datetime_of_number now r ru = true.
Proof.
  unfold Rules.violations. rewrite list_elem_of_In, in_map_iff. split.
  - intros (ru' & Hname & Hin). apply name_inj in Hname. subst ru'.
    apply filter_In in Hin. tauto.
  - intros H. exists ru. split; [reflexivity|]. apply filter_In. split; [|exact H].
    unfold Rules.order. destruct ru; simpl; tauto.
Qed.

Lemma future_check_not_after now v :
  not_after now v → future_check now v = Ok false.
Proof.
  intros (t & Ht & Htz & Hle). unfold Silver.future_check. rewrite Ht. simpl.
  rewrite Htz. f_equal. lia.
Qed.

Lemma future_date_reported now r b issues :
  validate_transaction now r = Ok (b, issues) →
  "future_date" ∈ issues ↔ future_check now (trans_date_trans_time r) = Ok true.
Proof.
  intros H. apply validate_transaction_violations in H as [-> _].
  change "future_date" with (name FutureDate). rewrite elem_of_violations.
  cbn [Rules.violates]. rewrite (in_futureb_check now).
  destruct (future_check now (trans_date_trans_time r)) as [[|]|e];
    split; congruence.
Qed.

Lemma invalid_date_reported now r b issues :
  validate_transaction now r = Ok (b, issues) →
  "invalid_date" ∈ issues ↔ raises (future_check now (trans_date_trans_time r)).
Proof.
  intros H. apply validate_transaction_violations in H as [-> _].
  change "invalid_date" with (name InvalidDate). rewrite elem_of_violations.
  cbn [Rules.violates]. rewrite (uninterpretableb_check now).
  destruct (future_check now (trans_date_trans_time r)) as [[|]|e];
    simpl; split; intros; try congruence; tauto.
Qed.

(** C3, amended. For every record whose amount is a number or missing,
    [validate_transaction] returns a pair [(is_valid, issues)] and does not
    raise; and whenever the interpretation of the date raises (in the
    conversion or in the comparison with the current time), the exception
    is caught and [invalid_date] is among the issues. *)
Theorem validate_transaction_never_raises now r :
  numeric_or_absent (amt r) →
  ∃ b issues,
    validate_transaction now r = Ok (b, issues) ∧
    (raises (future_check now (trans_date_trans_time r)) →
     "invalid_date" ∈ issues).
Proof.
  intros Hamt.
  destruct (validate_transaction_returns now r Hamt) as (b & issues & H).
  exists b, issues. split; [exact H|].
  intros Hraise. apply (invalid_date_reported now r b issues H). exact Hraise.
Qed.

(** C4. For every record on which [validate_transaction] returns, the flag
    [is_valid] is true if and only if the list of issues is empty. *)
Theorem validate_transaction_is_valid_iff now r b issues :
  validate_transaction now r = Ok (b, issues) →
  (b = true ↔ issues = []).
Proof.
  intros H. apply validate_transaction_violations in H as [_ ->].
  destruct issues as [|x issues]; simpl; split; intros; congruence.
Qed.

(** C5. The issues are all the violated rules, none left out, in the fixed
    order negative_amount, missing_amount, missing_merchant,
    missing_category, future_date / invalid_date: the returned list is the
    rule list filtered by applicability, and the validator returns it
    whenever the amount is a number or missing. In particular a record with
    amount and merchant missing, a category and a timestamp that is not
    after the current time has exactly the issues missing_amount and
    missing_merchant, in that order. *)
Theorem validate_transaction_collects_all now r :
  (∀ b issues, validate_transaction now r = Ok (b, issues) →
               issues = violations now r) ∧
  (numeric_or_absent (amt r) →
   ∃ b, validate_transaction now r = Ok (b, violations now r)) ∧
  (isna (amt r) = true → isna (merchant r) = true →
   isna (category r) = false →
   not_after now (trans_date_trans_time r) →
   validate_transaction now r
   = Ok (false, ["missing_amount"; "missing_merchant"])).
Proof.
  split; [|split].
  - intros b issues H. apply (validate_transaction_violations now r b issues H).
  - intros Hamt.
    destruct (validate_transaction_returns now r Hamt) as (b & issues & H).
    exists b. rewrite H.
    apply validate_transaction_violations in H as [-> _]. reflexivity.
  - intros Hamt Hmer Hcat Hts. unfold Silver.validate_transaction, notna.
    rewrite Hamt, Hmer, Hcat, (future_check_not_after now _ Hts). reflexivity.
Qed.

(** C6, amended. On every record on which the validator returns,
    future_date is reported exactly when the timestamp converts to an
    instant without time zone that is strictly after the current time;
    invalid_date is reported exactly when the timestamp cannot be compared
    with the current time: it does not convert, or it is Python's [None],
    or it converts to an instant with a time zone; and the two are never
    reported together. *)
Theorem validate_transaction_date_issues now r b issues :
  validate_transaction now r = Ok (b, issues) →
  ("future_date" ∈ issues ↔ in_future now (trans_date_trans_time r)) ∧
  ("invalid_date" ∈ issues ↔ uninterpretable (trans_date_trans_time r)) ∧
  ¬ ("future_date" ∈ issues ∧ "invalid_date" ∈ issues).
Proof.
  intros H.
  pose proof (future_date_reported now r b issues H) as Hf.
  pose proof (invalid_date_reported now r b issues H) as Hi.
  split; [|split].
  - rewrite Hf. apply future_check_true.
  - rewrite Hi. apply future_check_raise.
  - rewrite Hf, Hi. intros [E1 E2]. rewrite E1 in E2. exact E2.
Qed.

(** C10, amended. For every record whose timestamp is missing as [NaT] or
    [nan] (the forms a missing timestamp has after the type normalisation),
    the validator reports neither future_date nor invalid_date; and when
    the amount is a number that is not negative and merchant and category
    are present, the record is valid and its list of issues is empty. *)
Theorem validate_transaction_missing_timestamp now r :
  trans_date_trans_time r = VNaT ∨ trans_date_trans_time r = VNaN →
  (∀ b issues, validate_transaction now r = Ok (b, issues) →
               ("future_date" ∉ issues) ∧ ("invalid_date" ∉ issues)) ∧
  (∀ q, amt r = VNum q → (0 <= q)%Q →
        isna (merchant r) = false → isna (category r) = false →
        validate_transaction now r = Ok (true, [])).
Proof.
  intros Hts.
  assert (Hcheck : future_check now (trans_date_trans_time r) = Ok false).
  { destruct Hts as [-> | ->]; reflexivity. }
  split.
  - intros b issues H.
    rewrite (future_date_reported now r b issues H),
            (invalid_date_reported now r b issues H), Hcheck.
    simpl. split; [discriminate | tauto].
  - intros q Hq Hpos Hmer Hcat. unfold Silver.validate_transaction, notna.
    rewrite Hq, Hmer, Hcat, Hcheck. simpl.
    assert (Hneg : Qltb q 0 = false).
    { unfold Qltb. apply negb_false_iff, Qle_bool_iff. exact Hpos. }
    rewrite Hneg. reflexivity.
Qed.

End Validator.

(** *** Closed instances *)

(** C3, counterexample. A record whose amount is a string: the comparison
    [amt < 0], which is outside the [try] block, raises [TypeError]. *)
Lemma validate_transaction_raises_on_text_amount :
  Silver.validate_transaction Fixture.parse_datetime Fixture.datetime_of_number
    (Fixture.clock 0) (Fixture.test_store (VStr "fifty") Fixture.yesterday)
  = Raise TypeError.
Proof. reflexivity. Qed.

Lemma validate_transaction_never_raises_witness :
  numeric_or_absent (amt (Fixture.test_store VNaN (VStr "01/32/2024"))) ∧
  ∃ b issues,
    Silver.validate_transaction Fixture.parse_datetime
      Fixture.datetime_of_number (Fixture.clock 0)
      (Fixture.test_store VNaN (VStr "01/32/2024")) = Ok (b, issues) ∧
    (raises (Silver.future_check Fixture.parse_datetime
               Fixture.datetime_of_number (Fixture.clock 0)
               (trans_date_trans_time (Fixture.test_store VNaN (VStr "01/32/2024")))) →
     "invalid_date" ∈ issues).
Proof.
  split; [left; reflexivity|].
  apply (validate_transaction_never_raises Fixture.parse_datetime
           Fixture.datetime_of_number).
  left. reflexivity.
Defined.

Lemma validate_transaction_is_valid_iff_witness :
  Silver.validate_transaction Fixture.parse_datetime Fixture.datetime_of_number
    (Fixture.clock 0) (Fixture.test_store (VNum (-50)) Fixture.yesterday)
  = Ok (false, ["negative_amount"]) ∧
  (false = true ↔ ["negative_amount"] = []).
Proof.
  split; [reflexivity|].
  apply (validate_transaction_is_valid_iff Fixture.parse_datetime
           Fixture.datetime_of_number (Fixture.clock 0)
           (Fixture.test_store (VNum (-50)) Fixture.yesterday)).
  reflexivity.
Defined.

Lemma validate_transaction_collects_all_witness :
  not_after Fixture.parse_datetime Fixture.datetime_of_number
    (Fixture.clock 0) (trans_date_trans_time Fixture.no_amount_no_merchant) ∧
  Silver.validate_transaction Fixture.parse_datetime Fixture.datetime_of_number
    (Fixture.clock 0) Fixture.no_amount_no_merchant
  = Ok (false, ["missing_amount"; "missing_merchant"]).
Proof.
  assert (H : not_after Fixture.parse_datetime Fixture.datetime_of_number
                (Fixture.clock 0) (trans_date_trans_time Fixture.no_amount_no_merchant)).
  { eexists. split; [reflexivity|]. split; [reflexivity|]. vm_compute. discriminate. }
  split; [exact H|].
  apply (validate_transaction_collects_all Fixture.parse_datetime
           Fixture.datetime_of_number (Fixture.clock 0) Fixture.no_amount_no_merchant);
    [reflexivity | reflexivity | reflexivity | exact H].
Defined.

(** C6, counterexample. A record that breaks no other rule and whose
    timestamp is an instant with a time zone, one day after the current
    time: the timestamp is present and parses to a time strictly after the
    current time, and it is not unparseable; yet the comparison with the
    naive [datetime.now()] raises, so the validator reports invalid_date
    and not future_date. *)
Lemma validate_transaction_aware_future :
  Rules.parses_later Fixture.parse_datetime Fixture.datetime_of_number
    (Fixture.clock 0) Fixture.tomorrow_utc ∧
  ¬ Rules.unparseable Fixture.parse_datetime Fixture.datetime_of_number
      Fixture.tomorrow_utc ∧
  Silver.validate_transaction Fixture.parse_datetime Fixture.datetime_of_number
    (Fixture.clock 0) (Fixture.test_store (VNum 50) Fixture.tomorrow_utc)
  = Ok (false, ["invalid_date"]).
Proof.
  split; [|split].
  - split; [reflexivity|]. eexists. split; [reflexivity|]. reflexivity.
  - intros H. exact H.
  - reflexivity.
Qed.

Lemma validate_transaction_date_issues_witness :
  Silver.validate_transaction Fixture.parse_datetime Fixture.datetime_of_number
    (Fixture.clock 0) (Fixture.test_store (VNum 50) Fixture.tomorrow)
  = Ok (false, ["future_date"]) ∧
  ("future_date" ∈ ["future_date"]
   ↔ in_future Fixture.parse_datetime Fixture.datetime_of_number
       (Fixture.clock 0) Fixture.tomorrow) ∧
  ("invalid_date" ∈ ["future_date"]
   ↔ uninterpretable Fixture.parse_datetime Fixture.datetime_of_number
       Fixture.tomorrow) ∧
  ¬ ("future_date" ∈ ["future_date"] ∧ "invalid_date" ∈ ["future_date"]).
Proof.
  split; [reflexivity|].
  apply (validate_transaction_date_issues Fixture.parse_datetime
           Fixture.datetime_of_number (Fixture.clock 0)
           (Fixture.test_store (VNum 50) Fixture.tomorrow) false).
  reflexivity.
Defined.

(** C10, counterexample. A record that satisfies every other rule and whose
    timestamp is Python's [None]: [pd.to_datetime(None)] is [None], the
    comparison with [datetime.now()] raises, and the record is reported
    with invalid_date. *)
Lemma validate_transaction_none_timestamp :
  Silver.validate_transaction Fixture.parse_datetime Fixture.datetime_of_number
    (Fixture.clock 0) (Fixture.test_store (VNum 50) VNone)
  = Ok (false, ["invalid_date"]).
Proof. reflexivity. Qed.

Lemma validate_transaction_missing_timestamp_witness :
  (trans_date_trans_time (Fixture.test_store (VNum 50) VNaT) = VNaT ∨
   trans_date_trans_time (Fixture.test_store (VNum 50) VNaT) = VNaN) ∧
  Silver.validate_transaction Fixture.parse_datetime Fixture.datetime_of_number
    (Fixture.clock 0) (Fixture.test_store (VNum 50) VNaT)
  = Ok (true, []).
Proof.
  split; [left; reflexivity|].
  apply (proj2 (validate_transaction_missing_timestamp Fixture.parse_datetime
                  Fixture.datetime_of_number (Fixture.clock 0)
                  (Fixture.test_store (VNum 50) VNaT) (or_introl eq_refl)) 50%Q);
    [reflexivity | discriminate | reflexivity | reflexivity].
Defined.

(** *** The stage *)

Lemma mapM_Ok_elem {A B} (f : A → result B) (l : list A) (l' : list B) x :
  mapM f l = Ok l' → x ∈ l → ∃ y, y ∈ l' ∧ f x = Ok y.
Proof.
  revert l'. induction l as [|a l IH]; intros l' H Hx.
  - inversion Hx.
  - simpl in H. destruct (f a) as [b|e] eqn:Ea; simpl in H; [|discriminate].
    destruct (mapM f l) as [bs|e] eqn:El; simpl in H; [|discriminate].
    injection H as <-. apply elem_of_cons in Hx as [->|Hx].
    + exists b. split; [left|exact Ea].
    + destruct (IH bs eq_refl Hx) as (y & Hy & Hfy).
      exists y. split; [right; exact Hy|exact Hfy].
Qed.

Lemma mapM_Ok_length {A B} (f : A → result B) (l : list A) (l' : list B) :
  mapM f l = Ok l' → length l' = length l.
Proof.
  revert l'. induction l as [|a l IH]; intros l' H; simpl in H.
  - injection H as <-. reflexivity.
  - destruct (f a) as [b|e]; simpl in H; [|discriminate].
    destruct (mapM f l) as [bs|e]; simpl in H; [|discriminate].
    injection H as <-. simpl. f_equal. apply IH. reflexivity.
Qed.

Lemma sum_bool_invert (col : list bool) :
  sum_bool col + sum_bool (invert col) = length col.
Proof.
  induction col as [|b col IH]; simpl; [reflexivity|].
  destruct b; simpl; lia.
Qed.

Lemma sum_bool_filter {A} (f : A → bool) (l : list A) :
  sum_bool (map f l) = length (filter (λ x, f x = true) l).
Proof.
  induction l as [|a l IH]; simpl; [reflexivity|].
  rewrite filter_cons. case_decide as Hd; destruct (f a); simpl;
    try congruence; rewrite IH; reflexivity.
Qed.

Lemma sum_bool_invert_filter {A} (f : A → bool) (l : list A) :
  sum_bool (invert (map f l)) = length (filter (λ x, f x = false) l).
Proof.
  induction l as [|a l IH]; simpl; [reflexivity|].
  rewrite filter_cons. case_decide as Hd; destruct (f a); simpl;
    try congruence; rewrite IH; reflexivity.
Qed.

Section Stage.

Variable parse_datetime : string -> parse_outcome.
Variable parse_datetime_in : list value -> string -> option timestamp.
Variable datetime_of_number : Q -> option timestamp.
Variable parse_numeric : string -> option Q.

Local Abbreviation validate_transaction :=
  (Silver.validate_transaction parse_datetime datetime_of_number).
Local Abbreviation to_datetime_in :=
  (Silver.to_datetime_in parse_datetime parse_datetime_in datetime_of_number).
Local Abbreviation assign_datetime :=
  (Silver.assign_datetime parse_datetime parse_datetime_in datetime_of_number).
Local Abbreviation to_numeric_coerce := (Silver.to_numeric_coerce parse_numeric).
Local Abbreviation normalize_types :=
  (Silver.normalize_types parse_datetime parse_datetime_in datetime_of_number
     parse_numeric).
Local Abbreviation apply_validate :=
  (Silver.apply_validate parse_datetime datetime_of_number).
Local Abbreviation clean_and_validate :=
  (Silver.clean_and_validate parse_datetime parse_datetime_in
     datetime_of_number parse_numeric).

(** [errors='coerce']: every cell becomes a number or [nan]. *)
Lemma to_numeric_coerce_numeric v : numeric_or_absent (to_numeric_coerce v).
Proof.
  destruct v as [| | |q|s|t]; simpl; try (left; reflexivity).
  - right. eauto.
  - destruct (parse_numeric s); [right; eauto | left; reflexivity].
Qed.

Lemma normalize_types_length df df' :
  normalize_types df = Ok df' → length df' = length df.
Proof.
  unfold Silver.normalize_types, Silver.assign_datetime. intros H.
  destruct (mapM _ df) as [df1|e] eqn:E1; simpl in H; [|discriminate].
  destruct (mapM _ df1) as [df2|e] eqn:E2; simpl in H; [|discriminate].
  injection H as <-. rewrite length_map.
  rewrite (mapM_Ok_length _ _ _ E2). apply (mapM_Ok_length _ _ _ E1).
Qed.

Lemma normalize_types_amounts df df' :
  normalize_types df = Ok df' →
  Forall (λ r, numeric_or_absent (amt r)) df'.
Proof.
  unfold Silver.normalize_types. intros H.
  destruct (assign_datetime _ _ df) as [df1|e]; simpl in H; [|discriminate].
  destruct (assign_datetime _ _ df1) as [df2|e]; simpl in H; [|discriminate].
  injection H as <-. apply Forall_forall. intros r Hr.
  apply list_elem_of_In, in_map_iff in Hr as (r0 & <- & _).
  apply to_numeric_coerce_numeric.
Qed.

(** After the type normalisation the validator raises on no row. *)
Lemma apply_validate_returns clock first df :
  Forall (λ r, numeric_or_absent (amt r)) df →
  ∃ results, apply_validate clock first df = Ok results.
Proof.
  intros H. revert first. induction H as [|r df Hr _ IH]; intros first; simpl.
  - eauto.
  - destruct (validate_transaction_returns parse_datetime datetime_of_number
                (clock first) r Hr) as (b & issues & ->).
    destruct (IH (S first)) as (results & ->). simpl. eauto.
Qed.

Lemma apply_validate_length clock first df results :
  apply_validate clock first df = Ok results → length results = length df.
Proof.
  revert first results. induction df as [|r df IH]; intros first results H;
    simpl in H.
  - injection H as <-. reflexivity.
  - destruct (validate_transaction _ r) as [x|e]; simpl in H; [|discriminate].
    destruct (apply_validate clock (S first) df) as [xs|e] eqn:E; simpl in H;
      [|discriminate].
    injection H as <-. simpl. f_equal. apply (IH _ _ E).
Qed.

(** An unparseable date string anywhere in one of the two date columns
    makes the type normalisation raise. *)
Lemma to_datetime_in_raises col s :
  parse_datetime s = ParseError → raises (to_datetime_in col (VStr s)).
Proof. intros H. simpl. rewrite H. exact I. Qed.

Lemma normalize_types_raises df r s :
  r ∈ df →
  trans_date_trans_time r = VStr s ∨ dob r = VStr s →
  parse_datetime s = ParseError →
  raises (normalize_types df).
Proof.
  intros Hr Hcol Hparse. unfold Silver.normalize_types, Silver.assign_datetime.
  destruct (mapM _ df) as [df1|e] eqn:E1; simpl; [|exact I].
  destruct (mapM_Ok_elem _ _ _ r E1 Hr) as (r1 & Hr1 & Hconv).
  destruct Hcol as [Hts|Hdob].
  - rewrite Hts in Hconv.
    pose proof (to_datetime_in_raises (map trans_date_trans_time df) s Hparse)
      as Hraise.
    destruct (to_datetime_in _ (VStr s)); simpl in *; [tauto|discriminate].
  - destruct (to_datetime_in _ (trans_date_trans_time r)) as [v|e];
      simpl in Hconv; [|discriminate].
    injection Hconv as <-.
    destruct (mapM _ df1) as [df2|e] eqn:E2; simpl; [|exact I].
    destruct (mapM_Ok_elem _ _ _ _ E2 Hr1) as (r2 & _ & Hconv).
    cbn [dob set_trans_date_trans_time] in Hconv. rewrite Hdob in Hconv.
    pose proof (to_datetime_in_raises (map dob df1) s Hparse) as Hraise.
    destruct (to_datetime_in _ (VStr s)); simpl in *; [tauto|discriminate].
Qed.

(** C2. The type normalisation does raise on a parsing failure in a date
    column: a bronze frame with an unparseable string as transaction
    timestamp or date of birth makes [clean_and_validate] raise and write
    nothing ([pd.to_datetime] is called without [errors='coerce']). *)
Theorem clean_and_validate_aborts_on_bad_date clock fs df r s :
  bronze_file fs = Some df →
  r ∈ df →
  trans_date_trans_time r = VStr s ∨ dob r = VStr s →
  parse_datetime s = ParseError →
  ∃ e, clean_and_validate clock fs = (Raise e, fs).
Proof.
  intros Hfile Hr Hcol Hparse.
  pose proof (normalize_types_raises df r s Hr Hcol Hparse) as Hraise.
  unfold Silver.clean_and_validate, Silver.read_parquet. rewrite Hfile. simpl.
  destruct (normalize_types df) as [df'|e]; simpl in *; [tauto|eauto].
Qed.

(** C7. Whenever the Silver stage returns its statistics, valid_rows +
    invalid_rows = total_rows, total_rows is the number of records of the
    bronze frame, and valid_rows and invalid_rows count the written records
    with is_valid true and false; and the stage does return them for every
    bronze frame with a row whose type normalisation succeeds. *)
Theorem clean_and_validate_stats clock fs :
  (∀ md fs', clean_and_validate clock fs = (Ok md, fs') →
     valid_rows md + invalid_rows md = total_rows md ∧
     ∃ df out,
       bronze_file fs = Some df ∧ silver_file fs' = Some out ∧
       total_rows md = length df ∧ length out = length df ∧
       valid_rows md = length (filter (λ r, is_valid r = true) out) ∧
       invalid_rows md = length (filter (λ r, is_valid r = false) out)) ∧
  (∀ df df', bronze_file fs = Some df → df ≠ [] →
     normalize_types df = Ok df' →
     ∃ md fs', clean_and_validate clock fs = (Ok md, fs')).
Proof.
  split.
  - intros md fs'. unfold Silver.clean_and_validate, Silver.read_parquet.
    destruct (bronze_file fs) as [df|] eqn:Hfile; simpl; [|discriminate].
    destruct (normalize_types df) as [df'|e] eqn:Hnorm; simpl; [|discriminate].
    destruct (apply_validate clock 0 df') as [results|e] eqn:Hval; simpl;
      [|discriminate].
    intros [= <- <-]. simpl.
    set (out := map _ (zip df' results)).
    assert (Hlen : length out = length df).
    { unfold out. rewrite length_map, length_zip_with.
      rewrite (apply_validate_length _ _ _ _ Hval).
      rewrite (normalize_types_length _ _ Hnorm). lia. }
    split.
    + rewrite sum_bool_invert, length_map. reflexivity.
    + exists df, out. rewrite sum_bool_filter, sum_bool_invert_filter.
      repeat split; trivial.
  - intros df df' Hfile _ Hnorm.
    unfold Silver.clean_and_validate, Silver.read_parquet.
    rewrite Hfile. simpl. rewrite Hnorm. simpl.
    destruct (apply_validate_returns clock 0 df'
                (normalize_types_amounts df df' Hnorm)) as (results & ->).
    simpl. eauto.
Qed.

End Stage.

Lemma clean_and_validate_aborts_on_bad_date_witness :
  bronze_file (Files (Some [Fixture.undated]) None) = Some [Fixture.undated] ∧
  Fixture.undated ∈ [Fixture.undated] ∧
  (trans_date_trans_time Fixture.undated = VStr "not a date" ∨
   dob Fixture.undated = VStr "not a date") ∧
  Fixture.parse_datetime "not a date" = ParseError ∧
  ∃ e, Silver.clean_and_validate Fixture.parse_datetime
         Fixture.parse_datetime_in
         Fixture.datetime_of_number Fixture.parse_numeric Fixture.clock
         (Files (Some [Fixture.undated]) None)
       = (Raise e, Files (Some [Fixture.undated]) None).
Proof.
  split; [reflexivity|]. split; [left|]. split; [left; reflexivity|].
  split; [reflexivity|].
  apply (clean_and_validate_aborts_on_bad_date Fixture.parse_datetime
           Fixture.parse_datetime_in
           Fixture.datetime_of_number Fixture.parse_numeric Fixture.clock
           (Files (Some [Fixture.undated]) None) [Fixture.undated]
           Fixture.undated "not a date");
    [reflexivity | left | left; reflexivity | reflexivity].
Defined.

Lemma clean_and_validate_stats_witness :
  ∃ md fs',
    Silver.clean_and_validate Fixture.parse_datetime
      Fixture.parse_datetime_in Fixture.datetime_of_number
      Fixture.parse_numeric Fixture.clock (Files (Some Fixture.bronze) None)
    = (Ok md, fs') ∧
    valid_rows md + invalid_rows md = total_rows md.
Proof.
  eexists. eexists. split; [vm_compute; reflexivity|].
  eapply (proj1 (clean_and_validate_stats Fixture.parse_datetime
                   Fixture.parse_datetime_in
                   Fixture.datetime_of_number Fixture.parse_numeric
                   Fixture.clock (Files (Some Fixture.bronze) None))).
  vm_compute. reflexivity.
Defined.

(** The run of [test_validation_counts]: four rows, of which only the first
    is valid. *)
Example clean_and_validate_fixture :
  let run := Silver.clean_and_validate Fixture.parse_datetime
               Fixture.parse_datetime_in
               Fixture.datetime_of_number Fixture.parse_numeric Fixture.clock
               (Files (Some Fixture.bronze) None) in
  run.1 = Ok (Metadata 4 1 3 (Fixture.clock 5)) ∧
  option_map (map quality_issues) (silver_file run.2)
  = Some [None; Some "negative_amount"; Some "missing_merchant";
          Some "missing_amount"].
Proof. split; vm_compute; reflexivity. Qed.

End SilverFacts.

(** ** Facts about the aggregations *)

Module GoldFacts.

Import Gold Rates.

(** *** Powers of two *)

Lemma pow2_pos e : (0 < pow2 e)%Q.
Proof. apply Qpower_0_lt. reflexivity. Qed.

Lemma pow2_add a b : (pow2 (a + b) == pow2 a * pow2 b)%Q.
Proof. apply Qpower_plus. discriminate. Qed.

Lemma pow2_le a b : (a <= b)%Z → (pow2 a <= pow2 b)%Q.
Proof. intros H. apply Qpower_le_compat_l; [exact H|discriminate]. Qed.

Lemma pow2_lt a b : (a < b)%Z → (pow2 a < pow2 b)%Q.
Proof. intros H. apply Qpower_lt_compat_l; [exact H|reflexivity]. Qed.

Lemma pow2_le_inv a b : (pow2 a <= pow2 b)%Q → (a <= b)%Z.
Proof. intros H. apply (Qpower_le_compat_l_inv 2); [exact H|reflexivity]. Qed.

Lemma pow2_lt_inv a b : (pow2 a < pow2 b)%Q → (a < b)%Z.
Proof. intros H. apply (Qpower_lt_compat_l_inv 2); [exact H|reflexivity]. Qed.

Lemma pow2_Z n : (0 <= n)%Z → (pow2 n == inject_Z (2 ^ n))%Q.
Proof. intros H. unfold pow2. rewrite Zpower_Qpower by exact H. reflexivity. Qed.

Lemma pow2_sub a b : (pow2 (a - b) == pow2 a / pow2 b)%Q.
Proof. apply Qpower_minus. discriminate. Qed.

Lemma ilog2_spec (q : Q) :
  ¬ (q == 0)%Q → (pow2 (ilog2 q) <= Qabs q < pow2 (ilog2 q + 1))%Q.
Proof.
  unfold ilog2. cbv zeta. pose proof (Qred_correct q) as Hx.
  set (q' := Qred q) in *. clearbody q'. rewrite <- Hx. clear Hx q.
  rename q' into q. intros Hq.
  set (n := Z.abs (Qnum q)). set (d := Zpos (Qden q)).
  assert (Hn : (0 < n)%Z).
  { unfold n. destruct q as [[|p|p] dq]; simpl; try lia.
    exfalso. apply Hq. reflexivity. }
  assert (Hd : (0 < d)%Z) by (unfold d; lia).
  destruct (Z.log2_spec n Hn) as [Ha1 Ha2].
  destruct (Z.log2_spec d Hd) as [Hb1 Hb2].
  pose proof (Z.log2_nonneg n) as Ha0. pose proof (Z.log2_nonneg d) as Hb0.
  rewrite Z.pow_succ_r in Ha2, Hb2 by assumption.
  set (a := Z.log2 n) in *. set (b := Z.log2 d) in *.
  assert (Habs : (Qabs q == inject_Z n / inject_Z d)%Q).
  { unfold n, d. destruct q as [nq dq]. unfold Qabs. simpl.
    rewrite (Qmake_Qdiv (Z.abs nq) dq). reflexivity. }
  assert (Hdq : (0 < inject_Z d)%Q).
  { change 0%Q with (inject_Z 0). rewrite <- Zlt_Qlt. exact Hd. }
  assert (Hnq : (0 < inject_Z n)%Q).
  { change 0%Q with (inject_Z 0). rewrite <- Zlt_Qlt. exact Hn. }
  assert (Hlow : (pow2 (a - b - 1) <= Qabs q)%Q).
  { rewrite Habs. replace (a - b - 1)%Z with (a - (b + 1))%Z by lia.
    rewrite pow2_sub, !pow2_Z by lia.
    apply Qle_shift_div_l; [exact Hdq|].
    unfold Qdiv. rewrite <- Qmult_assoc, (Qmult_comm (/ _)), Qmult_assoc.
    apply Qle_shift_div_r.
    { change 0%Q with (inject_Z 0). rewrite <- Zlt_Qlt. lia. }
    rewrite <- !inject_Z_mult, <- Zle_Qle.
    replace (2 ^ (b + 1))%Z with (2 * 2 ^ b)%Z
      by (rewrite <- Z.pow_succ_r by lia; reflexivity).
    nia. }
  assert (Hup : (Qabs q < pow2 (a - b + 1))%Q).
  { rewrite Habs. replace (a - b + 1)%Z with (a + 1 - b)%Z by lia.
    rewrite pow2_sub, !pow2_Z by lia.
    apply Qlt_shift_div_r; [exact Hdq|].
    unfold Qdiv. rewrite <- Qmult_assoc, (Qmult_comm (/ _)), Qmult_assoc.
    apply Qlt_shift_div_l.
    { change 0%Q with (inject_Z 0). rewrite <- Zlt_Qlt. lia. }
    rewrite <- !inject_Z_mult, <- Zlt_Qlt.
    replace (2 ^ (a + 1))%Z with (2 * 2 ^ a)%Z
      by (rewrite <- Z.pow_succ_r by lia; reflexivity).
    nia. }
  destruct (Qle_bool (pow2 (a - b)) (Qabs q)) eqn:E.
  - apply Qle_bool_iff in E. split; assumption.
  - split; [exact Hlow|]. replace (a - b - 1 + 1)%Z with (a - b)%Z by lia.
    apply Qnot_le_lt. intros H. apply Qle_bool_iff in H. congruence.
Qed.

(** *** Rounding to an integer *)
Lemma rint_core (n d : Z) :
  (0 < d)%Z →
  let f := (n / d)%Z in
  let k := match (2 * (n mod d) ?= d)%Z with
           | Lt => f
           | Gt => (f + 1)%Z
           | Eq => if Z.even f then f else (f + 1)%Z
           end in
  (2 * d * k - d <= 2 * n <= 2 * d * k + d)%Z ∧
  (∀ a : Z, (a * d <= n)%Z → (a <= k)%Z) ∧
  (∀ b : Z, (n <= b * d)%Z → (k <= b)%Z).
Proof.
  intros Hd f k.
  pose proof (Z.div_mod n d ltac:(lia)) as Hdm.
  pose proof (Z.mod_pos_bound n d Hd) as Hr.
  fold f in Hdm. subst k.
  destruct (Z.compare_spec (2 * (n mod d)) d) as [He|Hl|Hg];
    try destruct (Z.even f); (split; [nia|split; intros c Hc; nia]).
Qed.

Lemma rint_comp (x y : Q) : (x == y)%Q → rint x = rint y.
Proof. intros H. unfold rint. rewrite (Qred_complete x y H). reflexivity. Qed.

Lemma rint_near (x : Q) :
  (inject_Z (rint x) - (1 # 2) <= x <= inject_Z (rint x) + (1 # 2))%Q.
Proof.
  unfold rint. cbv zeta. pose proof (Qred_correct x) as Hx.
  set (q := Qred x) in *. clearbody q. rewrite <- Hx. clear Hx x.
  destruct q as [n d]. cbn [Qnum Qden].
  destruct (rint_core n (Zpos d) ltac:(lia)) as [H _]. cbv zeta in H.
  set (k := match (2 * (n mod Z.pos d) ?= Z.pos d)%Z with
            | Eq => _ | Lt => _ | Gt => _ end) in *.
  unfold Qle, Qminus, Qplus, Qopp, inject_Z. cbn [Qnum Qden]. split; nia.
Qed.

Lemma rint_ge (x : Q) (a : Z) : (inject_Z a <= x)%Q → (a <= rint x)%Z.
Proof.
  unfold rint. cbv zeta. pose proof (Qred_correct x) as Hx.
  set (q := Qred x) in *. clearbody q. rewrite <- Hx. clear Hx x.
  destruct q as [n d]. cbn [Qnum Qden].
  destruct (rint_core n (Zpos d) ltac:(lia)) as (_ & H & _). cbv zeta in H.
  unfold Qle, inject_Z. cbn [Qnum Qden]. rewrite Z.mul_1_r. apply H.
Qed.

Lemma rint_le (x : Q) (b : Z) : (x <= inject_Z b)%Q → (rint x <= b)%Z.
Proof.
  unfold rint. cbv zeta. pose proof (Qred_correct x) as Hx.
  set (q := Qred x) in *. clearbody q. rewrite <- Hx. clear Hx x.
  destruct q as [n d]. cbn [Qnum Qden].
  destruct (rint_core n (Zpos d) ltac:(lia)) as (_ & _ & H). cbv zeta in H.
  unfold Qle, inject_Z. cbn [Qnum Qden]. rewrite Z.mul_1_r. apply H.
Qed.

Lemma rint_mono (x y : Q) : (x <= y)%Q → (rint x <= rint y)%Z.
Proof.
  intros Hxy. destruct (Z_le_gt_dec (rint x) (rint y)) as [H|H]; [exact H|].
  exfalso.
  pose proof (rint_near x) as [Hx _]. pose proof (rint_near y) as [_ Hy].
  assert (H1 : (inject_Z (rint y) + 1 <= inject_Z (rint x))%Q).
  { change 1%Q with (inject_Z 1). rewrite <- inject_Z_plus, <- Zle_Qle. lia. }
  assert (Heq : (x == y)%Q) by lra.
  apply rint_comp in Heq. lia.
Qed.

(** *** Rounding to binary64 *)
Lemma binary64_eq (q : Q) :
  (binary64 q == inject_Z (rint (q / pow2 (exponent q))) * pow2 (exponent q))%Q.
Proof. unfold binary64. cbv zeta. apply Qred_correct. Qed.

Lemma ilog2_comp (x y : Q) : (x == y)%Q → ilog2 x = ilog2 y.
Proof. intros H. unfold ilog2. rewrite (Qred_complete x y H). reflexivity. Qed.

Lemma binary64_comp (x y : Q) : (x == y)%Q → binary64 x = binary64 y.
Proof.
  intros H. unfold binary64, exponent. cbv zeta.
  rewrite (ilog2_comp x y H). apply Qred_complete.
  rewrite (rint_comp (x / _) (y / pow2 (Z.max (ilog2 y - 52) (-1074))));
    [reflexivity | rewrite H; reflexivity].
Qed.

Lemma binary64_0 (q : Q) : (q == 0)%Q → binary64 q = 0%Q.
Proof. intros H. rewrite (binary64_comp q 0 H). reflexivity. Qed.

(** The error of a rounding is at most half a unit of the last place. *)
Lemma binary64_error (q : Q) :
  (Qabs (binary64 q - q) <= pow2 (exponent q - 1))%Q.
Proof.
  rewrite binary64_eq. set (e := exponent q).
  pose proof (pow2_pos e) as He.
  pose proof (rint_near (q / pow2 e)) as [H1 H2].
  set (k := inject_Z (rint (q / pow2 e))) in *.
  assert (Hhalf : (pow2 (e - 1) == pow2 e * (1 # 2))%Q).
  { rewrite pow2_sub. reflexivity. }
  rewrite Hhalf.
  assert (Hq : (q == q / pow2 e * pow2 e)%Q) by (field; lra).
  revert H1 H2 Hq. generalize (q / pow2 e)%Q. generalize (pow2 e) He.
  clearbody k. intros p Hp y H1 H2 Hq.
  apply Qabs_Qle_condition. rewrite Hq. split; nra.
Qed.

(** A number that is a multiple of the unit of the last place of [q]
    bounds the rounding of [q] as it bounds [q]. *)
Lemma binary64_le (q : Q) (m j : Z) :
  (exponent q <= j)%Z → (q <= inject_Z m * pow2 j)%Q →
  (binary64 q <= inject_Z m * pow2 j)%Q.
Proof.
  intros Hj Hq. rewrite binary64_eq. set (e := exponent q) in *.
  pose proof (pow2_pos e) as He.
  assert (Hpow : (pow2 j == inject_Z (2 ^ (j - e)) * pow2 e)%Q).
  { rewrite <- pow2_Z, <- pow2_add by lia. replace (j - e + e)%Z with j by lia.
    reflexivity. }
  rewrite Hpow, Qmult_assoc, <- inject_Z_mult in *.
  apply Qmult_le_compat_r; [|lra].
  rewrite <- Zle_Qle. apply rint_le.
  apply Qle_shift_div_r; assumption.
Qed.

Lemma binary64_ge (q : Q) (m j : Z) :
  (exponent q <= j)%Z → (inject_Z m * pow2 j <= q)%Q →
  (inject_Z m * pow2 j <= binary64 q)%Q.
Proof.
  intros Hj Hq. rewrite binary64_eq. set (e := exponent q) in *.
  pose proof (pow2_pos e) as He.
  assert (Hpow : (pow2 j == inject_Z (2 ^ (j - e)) * pow2 e)%Q).
  { rewrite <- pow2_Z, <- pow2_add by lia. replace (j - e + e)%Z with j by lia.
    reflexivity. }
  rewrite Hpow, Qmult_assoc, <- inject_Z_mult in *.
  apply Qmult_le_compat_r; [|lra].
  rewrite <- Zle_Qle. apply rint_ge.
  apply Qle_shift_div_l; assumption.
Qed.

Lemma binary64_nonneg (q : Q) : (0 <= q)%Q → (0 <= binary64 q)%Q.
Proof.
  intros H. pose proof (binary64_ge q 0 (exponent q) ltac:(lia)) as H0.
  rewrite Qmult_0_l in H0. apply H0. exact H.
Qed.

(** The exponent of a number that is at most [2 ^ k]. *)
Lemma ilog2_le (q : Q) (k : Z) :
  ¬ (q == 0)%Q → (Qabs q <= pow2 k)%Q → (ilog2 q <= k)%Z.
Proof.
  intros Hq Hk. destruct (ilog2_spec q Hq) as [H _].
  apply pow2_le_inv. lra.
Qed.

Lemma exponent_le (q : Q) (k : Z) :
  ¬ (q == 0)%Q → (Qabs q <= pow2 k)%Q → (-1022 <= k)%Z →
  (exponent q <= k - 52)%Z.
Proof.
  intros Hq Hk Hmin. pose proof (ilog2_le q k Hq Hk). unfold exponent. lia.
Qed.

Lemma ilog2_mono (x y : Q) :
  (0 < x)%Q → (x <= y)%Q → (ilog2 x <= ilog2 y)%Z.
Proof.
  intros Hx Hxy.
  destruct (ilog2_spec x ltac:(lra)) as [H1 _].
  destruct (ilog2_spec y ltac:(lra)) as [_ H2].
  rewrite Qabs_pos in H1, H2 by lra.
  assert (H : (ilog2 x < ilog2 y + 1)%Z) by (apply pow2_lt_inv; lra).
  lia.
Qed.

(** Rounding is monotone on the positive numbers. *)
Lemma binary64_mono (x y : Q) :
  (0 < x)%Q → (x <= y)%Q → (binary64 x <= binary64 y)%Q.
Proof.
  intros Hx Hxy. pose proof (ilog2_mono x y Hx Hxy) as Hlog.
  destruct (Z.eq_dec (exponent x) (exponent y)) as [He|He].
  - rewrite !binary64_eq, He. pose proof (pow2_pos (exponent y)) as Hp.
    apply Qmult_le_compat_r; [|lra].
    rewrite <- Zle_Qle. apply rint_mono.
    apply Qmult_le_compat_r; [exact Hxy|].
    apply Qlt_le_weak, Qinv_lt_0_compat, Hp.
  - assert (Hey : exponent y = (ilog2 y - 52)%Z ∧ (ilog2 x + 1 <= ilog2 y)%Z).
    { unfold exponent in *. lia. }
    destruct Hey as [Hey Hlt].
    destruct (ilog2_spec x ltac:(lra)) as [_ H1].
    destruct (ilog2_spec y ltac:(lra)) as [H2 _].
    rewrite Qabs_pos in H1, H2 by lra.
    pose proof (pow2_le _ _ Hlt) as H3.
    assert (HP : (pow2 (ilog2 y) == inject_Z (2 ^ 52) * pow2 (exponent y))%Q).
    { rewrite <- pow2_Z, <- pow2_add by lia. rewrite Hey.
      replace (52 + (ilog2 y - 52))%Z with (ilog2 y) by lia. reflexivity. }
    apply (Qle_trans _ (inject_Z (2 ^ 52) * pow2 (exponent y))).
    + apply binary64_le; [unfold exponent in *; lia|]. rewrite <- HP. lra.
    + apply binary64_ge; [lia|]. rewrite <- HP. exact H2.
Qed.

(** The relative error of the rounding of a number that is at least 1. *)
Lemma binary64_relative (x : Q) :
  (1 <= x)%Q → (Qabs (binary64 x - x) <= x * pow2 (-53))%Q.
Proof.
  intros Hx. destruct (ilog2_spec x ltac:(lra)) as [H1 H2].
  rewrite Qabs_pos in H1, H2 by lra.
  assert (H0 : (0 < ilog2 x + 1)%Z).
  { apply pow2_lt_inv. change (pow2 0) with 1%Q. lra. }
  assert (He : exponent x = (ilog2 x - 52)%Z) by (unfold exponent; lia).
  eapply Qle_trans; [apply binary64_error|]. rewrite He.
  replace (ilog2 x - 52 - 1)%Z with (ilog2 x + -53)%Z by lia.
  rewrite pow2_add. apply Qmult_le_compat_r; [exact H1|].
  apply Qlt_le_weak, pow2_pos.
Qed.

(** Rounding a number between 0 and a binary64 number [c] that is at most
    [2 ^ k]: the result is between 0 and [c], at distance at most
    [2 ^ (k - 53)]. *)
Lemma binary64_bounded (q c : Q) (k m : Z) :
  (-1022 <= k)%Z → (c == inject_Z m * pow2 (k - 52))%Q → (c <= pow2 k)%Q →
  (0 <= q <= c)%Q →
  (0 <= binary64 q <= c)%Q ∧ (Qabs (binary64 q - q) <= pow2 (k - 53))%Q.
Proof.
  intros Hk Hc Hck [H0 Hq]. split; [split|].
  - apply binary64_nonneg, H0.
  - destruct (Qeq_dec q 0) as [Hz|Hnz]; [rewrite (binary64_0 q Hz); lra|].
    rewrite Hc. apply binary64_le; [|rewrite <- Hc; exact Hq].
    apply exponent_le; [exact Hnz | rewrite Qabs_pos; lra | exact Hk].
  - destruct (Qeq_dec q 0) as [Hz|Hnz].
    + rewrite (binary64_0 q Hz), Hz. simpl.
      apply Qlt_le_weak, pow2_pos.
    + eapply Qle_trans; [apply binary64_error|]. apply pow2_le.
      pose proof (exponent_le q k Hnz ltac:(rewrite Qabs_pos; lra) Hk). lia.
Qed.

(** *** The rates *)

Lemma float64_finite (q : Q) (k : Z) :
  (Qabs (binary64 q) <= pow2 k)%Q → (k < 1024)%Z →
  float64 q = FNum (binary64 q).
Proof.
  intros H Hk. unfold float64. cbv zeta.
  destruct (Qle_bool (pow2 1024) (Qabs (binary64 q))) eqn:E; [|reflexivity].
  apply Qle_bool_iff in E. pose proof (pow2_lt k 1024 Hk). lra.
Qed.

(** The quotient of two counts, in binary64. *)
Lemma true_divide_sound (f n : Z) :
  (1 <= n)%Z → (0 <= f <= n)%Z →
  ∃ x, true_divide f n = FNum x ∧ (0 <= x <= 1)%Q ∧
       (Qabs (x - inject_Z f / inject_Z n) <= pow2 (-51))%Q.
Proof.
  intros Hn [Hf0 Hfn].
  set (F := inject_Z f). set (N := inject_Z n).
  assert (HN : (1 <= N)%Q).
  { unfold N. change 1%Q with (inject_Z 1). rewrite <- Zle_Qle. exact Hn. }
  assert (HF : (0 <= F)%Q).
  { unfold F. change 0%Q with (inject_Z 0). rewrite <- Zle_Qle. exact Hf0. }
  assert (HFN : (F <= N)%Q) by (unfold F, N; rewrite <- Zle_Qle; exact Hfn).
  set (a := binary64 F). set (b := binary64 N).
  assert (Hb1 : (1 <= b)%Q).
  { change 1%Q with (binary64 1). apply binary64_mono; [reflexivity|exact HN]. }
  assert (Ha0 : (0 <= a)%Q) by (apply binary64_nonneg, HF).
  assert (Hab : (a <= b)%Q).
  { destruct (Qeq_dec F 0) as [Hz|Hnz].
    - unfold a. rewrite (binary64_0 F Hz). lra.
    - apply binary64_mono; [lra|exact HFN]. }
  set (u := pow2 (-53)).
  assert (Hu : u = (1 # 9007199254740992)%Q) by reflexivity.
  assert (Hbe : (Qabs (b - N) <= N * u)%Q) by (apply binary64_relative, HN).
  assert (Hae : (Qabs (a - F) <= F * u)%Q).
  { destruct (Z.eq_dec f 0%Z) as [->|Hnz].
    - unfold a, F. simpl. rewrite Qmult_0_l. apply Qle_refl.
    - apply binary64_relative. unfold F. change 1%Q with (inject_Z 1).
      rewrite <- Zle_Qle. lia. }
  apply Qabs_Qle_condition in Hbe as [Hbe1 Hbe2].
  apply Qabs_Qle_condition in Hae as [Hae1 Hae2].
  assert (Hq : (0 <= a / b <= 1)%Q).
  { split; [apply Qle_shift_div_l; lra | apply Qle_shift_div_r; lra]. }
  assert (Hbz : ¬ (b == 0)%Q) by lra.
  assert (Hquot : (Qabs (a / b - F / N) <= 3 * u)%Q).
  { rewrite Hu in *. apply Qabs_Qle_condition.
    assert (Heq : (a / b - F / N == (a * N - F * b) / (b * N))%Q)
      by (field; split; lra).
    rewrite Heq.
    assert (HbN : (0 < b * N)%Q) by nra.
    split.
    - apply Qle_shift_div_l; [exact HbN|]. nra.
    - apply Qle_shift_div_r; [exact HbN|]. nra. }
  destruct (binary64_bounded (a / b) 1 0 (2 ^ 52) ltac:(lia)
              ltac:(reflexivity) ltac:(discriminate) Hq) as [Hx He].
  exists (binary64 (a / b)). split; [|split; [exact Hx|]].
  - unfold true_divide, float_of_int, divide. fold F N a b.
    destruct (Qeq_bool b 0) eqn:E; [apply Qeq_bool_iff in E; tauto|].
    apply (float64_finite _ 0); [|lia]. rewrite Qabs_pos by tauto.
    change (pow2 0) with 1%Q. tauto.
  - change (pow2 (0 - 53)) with u in He. fold F N.
    assert (H51 : pow2 (-51) = (1 # 2251799813685248)%Q) by reflexivity.
    rewrite H51, Hu in *.
    apply Qabs_Qle_condition in He as [He1 He2].
    apply Qabs_Qle_condition in Hquot as [Hq1 Hq2].
    apply Qabs_Qle_condition. split; lra.
Qed.

Lemma times_100_sound (x : Q) :
  (0 <= x <= 1)%Q →
  ∃ q, times_100 (FNum x) = FNum q ∧ (0 <= q <= 100)%Q ∧
       (Qabs (q - x * 100) <= pow2 (-46))%Q.
Proof.
  intros Hx.
  destruct (binary64_bounded (x * 100) 100 7 3518437208883200 ltac:(lia)
              ltac:(reflexivity) ltac:(discriminate) ltac:(lra)) as [Hq He].
  exists (binary64 (x * 100)). split; [|split; [exact Hq|exact He]].
  unfold times_100, multiply. apply (float64_finite _ 7); [|lia].
  rewrite Qabs_pos by tauto. change (pow2 7) with 128%Q. lra.
Qed.

(** The percentage of two counts, in binary64. *)
Lemma percentage_sound (f n : Z) :
  (1 <= n)%Z → (0 <= f <= n)%Z →
  ∃ q, times_100 (true_divide f n) = FNum q ∧ (0 <= q <= 100)%Q ∧
       (Qabs (q - 100 * inject_Z f / inject_Z n) <= 1 # 10000000000000)%Q.
Proof.
  intros Hn Hf.
  destruct (true_divide_sound f n Hn Hf) as (x & -> & Hx & Hxe).
  destruct (times_100_sound x Hx) as (q & -> & Hq & Hqe).
  exists q. split; [reflexivity|]. split; [exact Hq|].
  assert (H51 : pow2 (-51) = (1 # 2251799813685248)%Q) by reflexivity.
  assert (H46 : pow2 (-46) = (1 # 70368744177664)%Q) by reflexivity.
  rewrite H51 in Hxe. rewrite H46 in Hqe.
  assert (Heq : (100 * inject_Z f / inject_Z n
                 == inject_Z f / inject_Z n * 100)%Q)
    by (unfold Qdiv; ring).
  rewrite Heq. clear Heq.
  revert Hxe. generalize (inject_Z f / inject_Z n)%Q. intros y Hxe.
  apply Qabs_Qle_condition in Hxe as [H1 H2].
  apply Qabs_Qle_condition in Hqe as [H3 H4].
  apply Qabs_Qle_condition. split; lra.
Qed.

(** [.round(2)] of a percentage, in binary64: the binary64 number nearest
    to a multiple [k / 100] of one hundredth, [k] being the integer nearest
    to the binary64 product of the percentage and 100. *)
Lemma round_2_sound (q : Q) :
  (0 <= q <= 100)%Q →
  ∃ k : Z, round_2 (FNum q) = FNum (binary64 (inject_Z k / 100)) ∧
           (0 <= k <= 10000)%Z ∧
           (Qabs (inject_Z k - q * 100) <= (1 # 2) + pow2 (-39))%Q ∧
           (0 <= binary64 (inject_Z k / 100) <= 100)%Q.
Proof.
  intros Hq.
  destruct (binary64_bounded (q * 100) 10000 14 2748779069440000 ltac:(lia)
              ltac:(reflexivity) ltac:(discriminate) ltac:(lra)) as [Hz He].
  set (z := binary64 (q * 100)) in *.
  assert (Hfz : float64 (q * 100) = FNum z).
  { apply (float64_finite _ 14); [|lia]. fold z. rewrite Qabs_pos by tauto.
    change (pow2 14) with 16384%Q. lra. }
  assert (Hk : (0 <= rint z <= 10000)%Z).
  { split; [apply rint_ge | apply rint_le]; simpl; tauto. }
  assert (HK : (0 <= inject_Z (rint z) <= 10000)%Q).
  { change 0%Q with (inject_Z 0). change 10000%Q with (inject_Z 10000).
    rewrite <- !Zle_Qle. exact Hk. }
  assert (Hdiv : (0 <= inject_Z (rint z) / 100 <= 100)%Q).
  { unfold Qdiv. change (/ 100)%Q with (1 # 100)%Q. lra. }
  destruct (binary64_bounded (inject_Z (rint z) / 100) 100 7 3518437208883200
              ltac:(lia) ltac:(reflexivity) ltac:(discriminate) Hdiv)
    as [Hr _].
  exists (rint z). split; [|split; [exact Hk|split; [|exact Hr]]].
  - unfold round_2, multiply. rewrite Hfz. unfold np_rint, divide.
    change (Qeq_bool 100 0) with false. cbv iota.
    apply (float64_finite _ 7); [|lia]. rewrite Qabs_pos by tauto.
    change (pow2 7) with 128%Q. lra.
  - pose proof (rint_near z) as [H1 H2].
    change (pow2 (14 - 53)) with (pow2 (-39)) in He.
    revert He. generalize (pow2 (-39)). intros p He.
    apply Qabs_Qle_condition in He as [H3 H4].
    apply Qabs_Qle_condition. split; lra.
Qed.

Lemma fraud_rate_of_value (f n : Z) :
  (1 <= n)%Z → (0 <= f <= n)%Z →
  ∃ k : Z, fraud_rate_of f n = FNum (binary64 (inject_Z k / 100)) ∧
           (0 <= k <= 10000)%Z ∧
           (Qabs (inject_Z k / 100 - 100 * inject_Z f / inject_Z n)
            <= (1 # 200) + (1 # 1000000000000))%Q ∧
           (0 <= binary64 (inject_Z k / 100) <= 100)%Q.
Proof.
  intros Hn Hf. unfold fraud_rate_of.
  destruct (percentage_sound f n Hn Hf) as (q & -> & Hq & Hqe).
  destruct (round_2_sound q Hq) as (k & -> & Hk & Hke & Hr).
  exists k. split; [reflexivity|]. split; [exact Hk|]. split; [|exact Hr].
  assert (H39 : pow2 (-39) = (1 # 549755813888)%Q) by reflexivity.
  rewrite H39 in Hke.
  revert Hqe. generalize (100 * inject_Z f / inject_Z n)%Q. intros y Hqe.
  apply Qabs_Qle_condition in Hqe as [H1 H2].
  apply Qabs_Qle_condition in Hke as [H3 H4].
  unfold Qdiv. change (/ 100)%Q with (1 # 100)%Q.
  apply Qabs_Qle_condition. split; lra.
Qed.


Lemma fraud_rate_of_sound (fraud_count total_transactions : Z) :
  (1 <= total_transactions)%Z →
  (0 <= fraud_count <= total_transactions)%Z →
  sound_rate total_transactions fraud_count
             (fraud_rate_of fraud_count total_transactions).
Proof.
  intros Ht Hf. split; [exact Ht|]. split; [exact Hf|].
  apply fraud_rate_of_value; assumption.
Qed.

(** *** Groups *)

Lemma groupby_elem {K} `{EqDecision K} (le : relation K)
    `{∀ x y, Decision (le x y)} (key : record → option K)
    (df : list record) (k : K) (g : list record) :
  In (k, g) (groupby le key df) →
  g = filter (λ r, key r = Some k) df ∧ ∃ r, r ∈ g.
Proof.
  unfold groupby. rewrite in_map_iff. intros (k' & [= -> <-] & Hin).
  split; [reflexivity|].
  apply list_elem_of_In in Hin. rewrite merge_sort_Permutation in Hin.
  apply elem_of_remove_dups, list_elem_of_omap in Hin as (r & Hr & Hkey).
  exists r. apply list_elem_of_filter. split; [exact Hkey|exact Hr].
Qed.

Lemma count_all_present {A} (col : list (option A)) :
  Forall is_Some col → count col = Z.of_nat (length col).
Proof.
  unfold count, present. intros H. f_equal.
  induction H as [|x col [a ->] _ IH]; [reflexivity|].
  simpl. f_equal. exact IH.
Qed.

Lemma sum_int_flags (col : list (option Z)) :
  Forall (λ x, x = Some 0%Z ∨ x = Some 1%Z) col →
  (0 <= sum_int col <= Z.of_nat (length col))%Z.
Proof.
  unfold sum_int, present.
  induction 1 as [|x col [-> | ->] _ IH];
    cbn [omap list_omap id fold_right length]; rewrite ?Nat2Z.inj_succ; lia.
Qed.

(** The counts of a non-empty group of records with a transaction id and
    a fraud flag in {0, 1}. *)
Lemma group_counts (g : list record) :
  Forall clean g → (∃ r, r ∈ g) →
  let total := count (map trans_num g) in
  let fraud := sum_int (map is_fraud g) in
  (1 <= total)%Z ∧ (0 <= fraud <= total)%Z.
Proof.
  intros Hg [r Hr] total fraud.
  assert (Htotal : total = Z.of_nat (length g)).
  { unfold total. rewrite count_all_present, length_map; [reflexivity|].
    apply Forall_forall. intros x Hx.
    apply list_elem_of_In, in_map_iff in Hx as (r0 & <- & Hr0).
    apply list_elem_of_In in Hr0.
    apply (proj1 (Forall_forall _ _) Hg r0 Hr0). }
  assert (Hfraud : (0 <= fraud <= Z.of_nat (length g))%Z).
  { unfold fraud. rewrite <- (length_map is_fraud g). apply sum_int_flags.
    apply Forall_forall. intros x Hx.
    apply list_elem_of_In, in_map_iff in Hx as (r0 & <- & Hr0).
    apply list_elem_of_In in Hr0.
    apply (proj1 (Forall_forall _ _) Hg r0 Hr0). }
  destruct g as [|r0 g]; [inversion Hr|]. simpl in *. lia.
Qed.

Lemma group_clean {K} `{EqDecision K} (key : record → option K) (k : K)
    (df : list record) :
  Forall clean df → Forall clean (filter (λ r, key r = Some k) df).
Proof.
  rewrite !List.Forall_forall. intros H r Hr.
  apply list_elem_of_In, list_elem_of_filter in Hr as [_ Hr].
  apply H, list_elem_of_In, Hr.
Qed.

#[local] Instance volume_ge_total : Total volume_ge.
Proof. intros a b. unfold volume_ge. lia. Qed.

Lemma Sorted_adjacent {A} (R : relation A) (l : list A) (i : nat) (a b : A) :
  Sorted R l → l !! i = Some a → l !! S i = Some b → R a b.
Proof.
  intros Hs. revert i. induction Hs as [|x l Hs IH Hhd]; intros i Ha Hb.
  - discriminate.
  - destruct i as [|i]; simpl in *.
    + injection Ha as <-. destruct Hhd as [|y l Hxy]; [discriminate|].
      simpl in Hb. injection Hb as <-. exact Hxy.
    + apply (IH i Ha Hb).
Qed.

(** C8, amended. For every frame of records that all have a transaction id
    and a fraud flag in {0, 1}, each Customer Summary row and each Category
    Analysis row has total_transactions ≥ 1, 0 ≤ fraud_count ≤
    total_transactions, and a fraud_rate between 0 and 100 that is the
    binary64 number nearest to a number of two decimals, which is
    100 × fraud_count / total_transactions rounded to two decimals up to
    the rounding error of the binary64 arithmetic (it is within
    0.005 + 1e-12 of the exact quotient). *)
Theorem fraud_rate_sound (df : list record) :
  Forall clean df →
  (∀ row, row ∈ create_customer_summary df →
     sound_rate (Customer.total_transactions row) (Customer.fraud_count row)
                (Customer.fraud_rate row)) ∧
  (∀ row, row ∈ create_merchant_category_analysis df →
     sound_rate (Category.total_transactions row) (Category.fraud_count row)
                (Category.fraud_rate row)).
Proof.
  intros Hdf. split; intros row Hrow.
  - unfold create_customer_summary in Hrow.
    apply list_elem_of_In, in_map_iff in Hrow as ([k g] & <- & Hin).
    apply groupby_elem in Hin as [-> Hne]. simpl.
    apply fraud_rate_of_sound;
      apply (group_counts _ (group_clean customer_key k df Hdf) Hne).
  - unfold create_merchant_category_analysis, sort_values_desc in Hrow.
    rewrite merge_sort_Permutation in Hrow.
    apply list_elem_of_In, in_map_iff in Hrow as ([k g] & <- & Hin).
    apply groupby_elem in Hin as [-> Hne]. simpl.
    apply fraud_rate_of_sound;
      apply (group_counts _ (group_clean category k df Hdf) Hne).
Qed.

(** C8, counterexample. A valid record, flagged as fraud, that has no
    transaction id: its customer row and its category row have
    total_transactions = 0 and fraud_count = 1, and an infinite
    fraud_rate. *)
Lemma fraud_count_exceeds_transactions :
  Gold.is_valid Fixture.untracked = true ∧
  Gold.is_fraud Fixture.untracked = Some 1%Z ∧
  map (λ row, (Customer.total_transactions row, Customer.fraud_count row,
               Customer.fraud_rate row))
      (create_customer_summary [Fixture.untracked])
  = [(0%Z, 1%Z, FInf false)] ∧
  map (λ row, (Category.total_transactions row, Category.fraud_count row,
               Category.fraud_rate row))
      (create_merchant_category_analysis [Fixture.untracked])
  = [(0%Z, 1%Z, FInf false)].
Proof. repeat split; vm_compute; reflexivity. Qed.

Lemma fraud_rate_sound_witness :
  Forall clean Fixture.silver ∧
  ∀ row, row ∈ create_customer_summary Fixture.silver →
    sound_rate (Customer.total_transactions row) (Customer.fraud_count row)
               (Customer.fraud_rate row).
Proof.
  assert (H : Forall clean Fixture.silver).
  { repeat (constructor;
      [split; [eexists; reflexivity
              | (left; reflexivity) || (right; reflexivity)]|]).
    constructor. }
  split; [exact H|]. apply (fraud_rate_sound Fixture.silver H).
Defined.

(** C9. The Category Analysis table is ordered by descending transaction
    count: of two adjacent rows the first has at least as many
    transactions as the second. *)
Theorem category_analysis_sorted (df : list record) (i : nat)
    (a b : Category.row) :
  create_merchant_category_analysis df !! i = Some a →
  create_merchant_category_analysis df !! S i = Some b →
  (Category.total_transactions a >= Category.total_transactions b)%Z.
Proof.
  intros Ha Hb. apply Z.le_ge.
  change (volume_ge a b).
  apply (Sorted_adjacent volume_ge (create_merchant_category_analysis df) i);
    [|exact Ha|exact Hb].
  unfold create_merchant_category_analysis, sort_values_desc.
  apply (Sorted_merge_sort volume_ge).
Qed.

Lemma category_analysis_sorted_witness :
  ∃ a b,
    create_merchant_category_analysis Fixture.silver !! 0 = Some a ∧
    create_merchant_category_analysis Fixture.silver !! 1 = Some b ∧
    (Category.total_transactions a >= Category.total_transactions b)%Z.
Proof.
  eexists. eexists. split; [vm_compute; reflexivity|].
  split; [vm_compute; reflexivity|].
  eapply (category_analysis_sorted Fixture.silver 0); vm_compute; reflexivity.
Defined.

(** *** The stage *)

Lemma filter_none_valid (df : list record) :
  Forall (λ r, is_valid r = false) df →
  filter (λ r, is_valid r = true) df = [].
Proof.
  induction 1 as [|r df Hr _ IH]; [reflexivity|].
  rewrite filter_cons, decide_False by congruence. exact IH.
Qed.

(** C1, amended. For every silver frame in which no record has is_valid =
    true, [create_analytical_tables] does not fail: it writes the customer
    summary and the category analysis, both with no rows, and returns
    statistics with valid_rows_used = 0, customers = 0 and categories = 0. *)
Theorem create_analytical_tables_no_valid_rows (now : Z) (fs : files)
    (df : list record) :
  silver_file fs = Some df →
  Forall (λ r, is_valid r = false) df →
  create_analytical_tables now fs
  = (Ok (Metadata (length df) 0 0 0 now), Files (Some df) (Some []) (Some [])).
Proof.
  intros Hfile Hdf. unfold create_analytical_tables, read_parquet.
  rewrite Hfile, (filter_none_valid df Hdf). reflexivity.
Qed.

(** C1, counterexample. A silver frame whose only record is invalid: the
    stage returns normally and both tables exist afterwards, empty. *)
Lemma create_analytical_tables_writes_empty_tables :
  Forall (λ r, is_valid r = false) [Fixture.rejected] ∧
  create_analytical_tables (Fixture.clock 0)
    (Files (Some [Fixture.rejected]) None None)
  = (Ok (Metadata 1 0 0 0 (Fixture.clock 0)),
     Files (Some [Fixture.rejected]) (Some []) (Some [])).
Proof. split; [repeat constructor|reflexivity]. Qed.

Lemma create_analytical_tables_no_valid_rows_witness :
  silver_file (Files (Some [Fixture.rejected; Fixture.rejected]) None None)
  = Some [Fixture.rejected; Fixture.rejected] ∧
  Forall (λ r, is_valid r = false) [Fixture.rejected; Fixture.rejected] ∧
  create_analytical_tables 0
    (Files (Some [Fixture.rejected; Fixture.rejected]) None None)
  = (Ok (Metadata 2 0 0 0 0),
     Files (Some [Fixture.rejected; Fixture.rejected]) (Some []) (Some [])).
Proof.
  split; [reflexivity|].
  assert (H : Forall (λ r, is_valid r = false)
                [Fixture.rejected; Fixture.rejected]).
  { repeat constructor. }
  split; [exact H|].
  apply (create_analytical_tables_no_valid_rows 0
           (Files (Some [Fixture.rejected; Fixture.rejected]) None None)
           [Fixture.rejected; Fixture.rejected] eq_refl H).
Defined.

(** The rounding on known cases: 0.1; two ties, which go to the even
    significand (1 - 2^-54 and 2^53 + 1); a number just above half the
    smallest subnormal number; and the overflow threshold. *)
Example binary64_values :
  binary64 (1 # 10) = (3602879701896397 # 36028797018963968)%Q ∧
  binary64 (1 - pow2 (-54)) = 1%Q ∧
  binary64 (inject_Z (2 ^ 53 + 1)) = inject_Z (2 ^ 53) ∧
  binary64 (pow2 (-1075) + pow2 (-1080)) = Qred (pow2 (-1074)) ∧
  float64 (pow2 1024) = FInf false.
Proof. repeat split; vm_compute; reflexivity. Qed.

(** The rounding error shows in the second decimal: 23 frauds in 160
    transactions are 14.375 percent, which rounds to 14.38, half to even;
    in binary64 the quotient times 100 is just below 14.375 and the row
    says 14.37. *)
Example fraud_rate_of_23_in_160 :
  map (λ row, (Customer.total_transactions row, Customer.fraud_count row,
               Customer.fraud_rate row))
      (create_customer_summary Fixture.busy)
  = [(160%Z, 23%Z, FNum (binary64 (1437 # 100)))] ∧
  map (λ row, (Category.total_transactions row, Category.fraud_count row,
               Category.fraud_rate row))
      (create_merchant_category_analysis Fixture.busy)
  = [(160%Z, 23%Z, FNum (binary64 (1437 # 100)))] ∧
  (fraud_rate_spec 23 160 == 1438 # 100)%Q ∧
  ¬ (binary64 (1437 # 100) == binary64 (1438 # 100))%Q.
Proof.
  split; [vm_compute; reflexivity|]. split; [vm_compute; reflexivity|].
  split; vm_compute; [reflexivity|discriminate].
Qed.

(** The runs of [test_fraud_calculations] and [test_spending_aggregations]. *)
Example create_customer_summary_fixture :
  map (λ row, (Customer.full_name row, Customer.total_transactions row,
               Customer.fraud_count row, Customer.fraud_rate row,
               Customer.total_spend row, Customer.avg_transaction row))
      (create_customer_summary Fixture.silver)
  = [("John Doe", 2%Z, 1%Z, FNum 50, FNum 150, FNum 75);
     ("Jane Smith", 2%Z, 0%Z, FNum 0, FNum 350, FNum 175);
     ("Bob Johnson", 1%Z, 1%Z, FNum 100, FNum 75, FNum 75)].
Proof. vm_compute. reflexivity. Qed.

End GoldFacts.

(** ** More facts about the Silver layer *)

Module SilverMore.

Import Silver Rules Normal SilverFacts.

Section Validator.

Variable parse_datetime : string -> parse_outcome.
Variable datetime_of_number : Q -> option timestamp.

Local Abbreviation to_datetime :=
  (Silver.to_datetime parse_datetime datetime_of_number).
Local Abbreviation future_check :=
  (Silver.future_check parse_datetime datetime_of_number).
Local Abbreviation validate_transaction :=
  (Silver.validate_transaction parse_datetime datetime_of_number).
Local Abbreviation violates :=
  (Rules.violates parse_datetime datetime_of_number).
Local Abbreviation violations :=
  (Rules.violations parse_datetime datetime_of_number).
Local Abbreviation on_time := (Normal.on_time parse_datetime datetime_of_number).
Local Abbreviation acceptable :=
  (Normal.acceptable parse_datetime datetime_of_number).

Lemma future_check_on_time now v :
  future_check now v = Ok false ↔ on_time now v.
Proof.
  unfold Silver.future_check, Normal.on_time, Rules.not_after. split.
  - destruct (to_datetime v) as [w|e] eqn:E; simpl; [|discriminate].
    destruct w as [| | | |?|t]; simpl; try discriminate.
    + intros _. left. reflexivity.
    + destruct (tz_aware t) eqn:Etz; [discriminate|].
      intros [= H]. right. exists t. repeat split; trivial. lia.
  - intros [->|(t & -> & Htz & Hle)]; simpl; [reflexivity|].
    rewrite Htz. f_equal. lia.
Qed.

(** X1. [validate_transaction] returns [(True, [])] exactly for the records
    whose amount is a number that is not negative, whose merchant and
    category are present, and whose timestamp converts to [NaT] or to a
    naive instant that is not after the current time. *)
Theorem validate_transaction_accepts now r :
  validate_transaction now r = Ok (true, []) ↔ acceptable now r.
Proof.
  unfold Normal.acceptable. rewrite <- future_check_on_time.
  unfold Silver.validate_transaction, notna, append. split.
  - destruct (amt r) as [| | |q|s|t]; simpl;
      try destruct (Qltb q 0) eqn:Hq; simpl;
      destruct (isna (merchant r)), (isna (category r)); simpl;
      destruct (future_check now (trans_date_trans_time r)) as [[|]|e];
      simpl; try discriminate.
    intros _. repeat split; trivial. exists q. split; [reflexivity|].
    unfold Qltb in Hq. apply negb_false_iff, Qle_bool_iff in Hq. exact Hq.
  - intros ((q & -> & Hq) & -> & -> & ->). simpl.
    assert (Hneg : Qltb q 0 = false).
    { unfold Qltb. apply negb_false_iff, Qle_bool_iff. exact Hq. }
    rewrite Hneg. reflexivity.
Qed.

(** X2. The list of issues never names a rule twice and has at most four
    entries: negative_amount and missing_amount exclude each other, and so
    do future_date and invalid_date. *)
Theorem validate_transaction_issue_list now r b issues :
  validate_transaction now r = Ok (b, issues) →
  NoDup issues ∧ length issues <= 4 ∧
  ¬ ("negative_amount" ∈ issues ∧ "missing_amount" ∈ issues).
Proof.
  unfold Silver.validate_transaction, notna, append.
  destruct (future_check now (trans_date_trans_time r)) as [[|]|e];
    destruct (amt r) as [| | |q|s|t]; simpl; try discriminate;
    try destruct (Qltb q 0); simpl;
    destruct (isna (merchant r)), (isna (category r)); simpl;
    intros [= <- <-]; (split; [|split]);
    first [ refine (bool_decide_unpack _ _); vm_compute; exact I
          | simpl; lia
          | intros [H1 H2]; revert H1 H2;
            rewrite ?elem_of_cons, ?elem_of_nil; intros H1 H2;
            intuition discriminate ].
Qed.

Lemma violates_later now now' r ru :
  (now <= now')%Z → violates now' r ru = true → violates now r ru = true.
Proof.
  intros Hle. destruct ru; simpl; trivial.
  unfold Rules.in_futureb.
  destruct (to_datetime (trans_date_trans_time r)) as [[| | | |?|t]|e];
    trivial.
  destruct (tz_aware t); simpl; trivial.
  rewrite !Z.ltb_lt. lia.
Qed.

(** X3. Time only heals a record whose timestamp is not a string (as every
    timestamp is that the stage hands to the validator; what pandas makes of
    a string can depend on the day it is read): when the validator returns
    on it at some reading of the clock, it returns at every later reading,
    every issue it reports later it already reported before, and a record
    that was valid stays valid. *)
Theorem validate_transaction_later now now' r b issues :
  (∀ s, trans_date_trans_time r ≠ VStr s) →
  (now <= now')%Z →
  validate_transaction now r = Ok (b, issues) →
  ∃ b' issues',
    validate_transaction now' r = Ok (b', issues') ∧
    (∀ x, x ∈ issues' → x ∈ issues) ∧
    (b = true → b' = true).
Proof.
  intros _ Hle H.
  assert (Hret : ∃ b' issues', validate_transaction now' r = Ok (b', issues')).
  { revert H. unfold Silver.validate_transaction.
    destruct (if notna (amt r) then lt_zero (amt r) else Ok false);
      simpl; [eauto|discriminate]. }
  destruct Hret as (b' & issues' & H').
  exists b', issues'. split; [exact H'|].
  apply validate_transaction_violations in H as [-> ->].
  apply validate_transaction_violations in H' as [-> ->].
  assert (Hsub : ∀ x, x ∈ violations now' r → x ∈ violations now r).
  { intros x Hx. unfold Rules.violations in Hx.
    apply list_elem_of_In, in_map_iff in Hx as (ru & <- & Hru).
    apply filter_In in Hru as [_ Hru].
    apply elem_of_violations. apply (violates_later now now' r ru Hle Hru). }
  split; [exact Hsub|].
  destruct (violations now r) as [|x l]; [|discriminate].
  intros _. destruct (violations now' r) as [|y l']; [reflexivity|].
  exfalso. specialize (Hsub y ltac:(left)). inversion Hsub.
Qed.

End Validator.

Lemma validate_transaction_issue_list_witness :
  Silver.validate_transaction Fixture.parse_datetime Fixture.datetime_of_number
    (Fixture.clock 0) (Fixture.test_store VNone Fixture.tomorrow)
  = Ok (false, ["missing_amount"; "future_date"]) ∧
  NoDup ["missing_amount"; "future_date"] ∧
  length ["missing_amount"; "future_date"] <= 4 ∧
  ¬ ("negative_amount" ∈ ["missing_amount"; "future_date"] ∧
     "missing_amount" ∈ ["missing_amount"; "future_date"]).
Proof.
  split; [reflexivity|].
  apply (validate_transaction_issue_list Fixture.parse_datetime
           Fixture.datetime_of_number (Fixture.clock 0)
           (Fixture.test_store VNone Fixture.tomorrow) false).
  reflexivity.
Defined.

Lemma validate_transaction_later_witness :
  (∀ s, trans_date_trans_time (Fixture.test_store (VNum 50) Fixture.tomorrow)
        ≠ VStr s) ∧
  (Fixture.clock 0 <= Fixture.clock 0 + 2 * Gold.ns_per_day)%Z ∧
  Silver.validate_transaction Fixture.parse_datetime Fixture.datetime_of_number
    (Fixture.clock 0) (Fixture.test_store (VNum 50) Fixture.tomorrow)
  = Ok (false, ["future_date"]) ∧
  ∃ b' issues',
    Silver.validate_transaction Fixture.parse_datetime
      Fixture.datetime_of_number (Fixture.clock 0 + 2 * Gold.ns_per_day)
      (Fixture.test_store (VNum 50) Fixture.tomorrow) = Ok (b', issues') ∧
    (∀ x, x ∈ issues' → x ∈ ["future_date"]) ∧
    (false = true → b' = true).
Proof.
  split; [discriminate|].
  split; [vm_compute; discriminate|]. split; [reflexivity|].
  apply (validate_transaction_later Fixture.parse_datetime
           Fixture.datetime_of_number (Fixture.clock 0)
           (Fixture.clock 0 + 2 * Gold.ns_per_day)
           (Fixture.test_store (VNum 50) Fixture.tomorrow) false);
    [discriminate | vm_compute; discriminate | reflexivity].
Defined.

(** *** The stage *)

Lemma mapM_Ok_Forall2 {A B} (f : A → result B) (l : list A) (l' : list B) :
  mapM f l = Ok l' → Forall2 (λ x y, f x = Ok y) l l'.
Proof.
  revert l'. induction l as [|a l IH]; intros l' H; simpl in H.
  - injection H as <-. constructor.
  - destruct (f a) as [b|e] eqn:Ea; simpl in H; [|discriminate].
    destruct (mapM f l) as [bs|e]; simpl in H; [|discriminate].
    injection H as <-. constructor; [exact Ea|]. apply IH. reflexivity.
Qed.

Lemma mapM_raises_iff {A B} (f : A → result B) (l : list A) :
  raises (mapM f l) ↔ ∃ x, x ∈ l ∧ raises (f x).
Proof.
  induction l as [|a l IH]; simpl.
  - split; [tauto|]. intros (x & Hx & _). inversion Hx.
  - destruct (f a) as [b|e] eqn:Ea; simpl.
    + destruct (mapM f l) as [bs|e]; simpl in *.
      * split; [tauto|]. intros (x & Hx & Hr).
        apply elem_of_cons in Hx as [->|Hx]; [rewrite Ea in Hr; exact Hr|].
        apply IH. eauto.
      * split; [|tauto]. intros _.
        destruct (proj1 IH I) as (x & Hx & Hr).
        exists x. split; [right; exact Hx|exact Hr].
    + split; [|tauto]. intros _. exists a. split; [left|].
      rewrite Ea. exact I.
Qed.

Lemma map_zip_with {A B C} (g : A → B → C) (l : list A) (k : list B) :
  map (λ p, let '(a, b) := p in g a b) (zip l k) = zip_with g l k.
Proof.
  revert k. induction l as [|a l IH]; intros [|b k]; simpl; trivial.
  f_equal. apply IH.
Qed.

Section Stage.

Variable parse_datetime : string -> parse_outcome.
Variable parse_datetime_in : list value -> string -> option timestamp.
Variable datetime_of_number : Q -> option timestamp.
Variable parse_numeric : string -> option Q.

Local Abbreviation validate_transaction :=
  (Silver.validate_transaction parse_datetime datetime_of_number).
Local Abbreviation to_datetime_in :=
  (Silver.to_datetime_in parse_datetime parse_datetime_in datetime_of_number).
Local Abbreviation to_numeric_coerce := (Silver.to_numeric_coerce parse_numeric).
Local Abbreviation normalize_types :=
  (Silver.normalize_types parse_datetime parse_datetime_in datetime_of_number
     parse_numeric).
Local Abbreviation apply_validate :=
  (Silver.apply_validate parse_datetime datetime_of_number).
Local Abbreviation clean_and_validate :=
  (Silver.clean_and_validate parse_datetime parse_datetime_in
     datetime_of_number parse_numeric).
Local Abbreviation violations :=
  (Rules.violations parse_datetime datetime_of_number).
Local Abbreviation converted :=
  (Normal.converted parse_datetime datetime_of_number parse_datetime_in
     parse_numeric).
Local Abbreviation assign_numeric := (Silver.assign_numeric parse_numeric).

Lemma converted_rows times dobs df df1 df2 :
  Forall2 (λ r r1, (let* v := to_datetime_in times (trans_date_trans_time r)
                    in Ok (set_trans_date_trans_time v r)) = Ok r1) df df1 →
  Forall2 (λ r1 r2, (let* v := to_datetime_in dobs (dob r1)
                     in Ok (set_dob v r1)) = Ok r2) df1 df2 →
  Forall2 (converted times dobs) df (map assign_numeric df2).
Proof.
  intros E1. revert df2. induction E1 as [|r r1 df df1 Hr _ IH]; intros df2 E2;
    inversion E2 as [|? r2 ? df2' Hr2 E2']; subst; simpl; constructor.
  - destruct (to_datetime_in times (trans_date_trans_time r)) as [v|e] eqn:Ev;
      simpl in Hr; [|discriminate]. injection Hr as <-.
    simpl in Hr2.
    destruct (to_datetime_in dobs (dob r)) as [w|e] eqn:Ew;
      simpl in Hr2; [|discriminate]. injection Hr2 as <-.
    unfold Normal.converted. simpl. repeat split; trivial.
  - apply IH. exact E2'.
Qed.

Lemma dob_kept times df df1 :
  Forall2 (λ r r1, (let* v := to_datetime_in times (trans_date_trans_time r)
                    in Ok (set_trans_date_trans_time v r)) = Ok r1) df df1 →
  map dob df1 = map dob df.
Proof.
  induction 1 as [|r r1 df df1 Hr _ IH]; [reflexivity|]. simpl.
  destruct (to_datetime_in times (trans_date_trans_time r)) as [v|e];
    simpl in Hr; [|discriminate]. injection Hr as <-. rewrite IH. reflexivity.
Qed.

Lemma normalize_types_converted df df' :
  normalize_types df = Ok df' →
  Forall2 (converted (map trans_date_trans_time df) (map dob df)) df df'.
Proof.
  unfold Silver.normalize_types, Silver.assign_datetime. intros H.
  destruct (mapM _ df) as [df1|e] eqn:E1; simpl in H; [|discriminate].
  destruct (mapM _ df1) as [df2|e] eqn:E2; simpl in H; [|discriminate].
  injection H as <-.
  apply mapM_Ok_Forall2 in E1. apply mapM_Ok_Forall2 in E2.
  rewrite (dob_kept _ _ _ E1) in E2.
  apply (converted_rows _ _ df df1 df2 E1 E2).
Qed.

Lemma to_datetime_in_instant col v w :
  to_datetime_in col v = Ok w → instant_or_nat w.
Proof.
  unfold instant_or_nat.
  destruct v as [| | |q|s|t]; simpl; try (intros [= <-]; eauto).
  - unfold to_datetime_num. destruct (datetime_of_number q);
      [intros [= <-]; eauto | discriminate].
  - destruct (parse_datetime s); [discriminate | intros [= <-]; eauto |].
    destruct (parse_datetime_in col s); [intros [= <-]; eauto | discriminate].
Qed.

Lemma to_numeric_coerce_number v : number_or_nan (to_numeric_coerce v).
Proof.
  unfold number_or_nan. destruct v as [| | |q|s|t]; simpl; eauto.
  destruct (parse_numeric s); eauto.
Qed.

Lemma converted_normalised times dobs r r' :
  converted times dobs r r' → normalised r'.
Proof.
  unfold normalised. intros (_ & _ & _ & Ht & Hd & -> & -> & -> & -> & ->).
  repeat split;
    eauto using to_datetime_in_instant, to_numeric_coerce_number.
Qed.

Lemma instant_fixed col w : instant_or_nat w → to_datetime_in col w = Ok w.
Proof. intros [->|[t ->]]; reflexivity. Qed.

Lemma number_fixed w : number_or_nan w → to_numeric_coerce w = w.
Proof. intros [->|[q ->]]; reflexivity. Qed.

Lemma normalize_types_fixed df :
  Forall normalised df → normalize_types df = Ok df.
Proof.
  intros H. unfold Silver.normalize_types, Silver.assign_datetime.
  assert (H1 : ∀ col,
             mapM (λ r, let* v := to_datetime_in col (trans_date_trans_time r)
                        in Ok (set_trans_date_trans_time v r)) df = Ok df).
  { intros col. induction H as [|r df (Ht & _) _ IH]; simpl; [reflexivity|].
    rewrite (instant_fixed col _ Ht). simpl. rewrite IH. simpl.
    unfold set_trans_date_trans_time. destruct r; reflexivity. }
  assert (H2 : ∀ col,
             mapM (λ r, let* v := to_datetime_in col (dob r)
                        in Ok (set_dob v r)) df = Ok df).
  { clear H1. intros col.
    induction H as [|r df (_ & Hd & _) _ IH]; simpl; [reflexivity|].
    rewrite (instant_fixed col _ Hd). simpl. rewrite IH. simpl.
    unfold set_dob. destruct r; reflexivity. }
  cbv zeta. rewrite H1. simpl. rewrite H2. simpl. f_equal. clear H1 H2.
  induction H as [|r df (_ & _ & Ha & Hl & Hg & Hml & Hmg) _ IH]; simpl;
    [reflexivity|].
  rewrite IH. f_equal. unfold assign_numeric.
  rewrite !number_fixed by assumption. destruct r; reflexivity.
Qed.

(** X7. The type normalisation is idempotent: on a frame that it produced
    it succeeds and changes nothing. *)
Theorem normalize_types_idempotent df df' :
  normalize_types df = Ok df' → normalize_types df' = Ok df'.
Proof.
  intros H. apply normalize_types_fixed.
  apply normalize_types_converted in H. revert H.
  generalize (map trans_date_trans_time df), (map dob df).
  intros times dobs H.
  induction H as [|r r' l l' Hr _ IH]; constructor;
    [apply (converted_normalised _ _ r r' Hr) | exact IH].
Qed.

Lemma assign_datetime_raises (get : record → value)
    (set : value → record → record) (df : list record) :
  raises (Silver.assign_datetime parse_datetime parse_datetime_in
            datetime_of_number get set df)
  ↔ ∃ r, r ∈ df ∧ raises (to_datetime_in (map get df) (get r)).
Proof.
  unfold Silver.assign_datetime. cbv zeta. rewrite mapM_raises_iff.
  split; intros (r & Hr & Hraise); exists r; (split; [exact Hr|]);
    destruct (to_datetime_in (map get df) (get r)); simpl in *; tauto.
Qed.

(** X8. With a bronze frame that has a row, the stage raises exactly when
    some cell of one of the two date columns does not convert as a cell of
    its column; the validator never makes it raise; and when it raises, no
    file is written. *)
Theorem clean_and_validate_fails_iff clock fs df :
  bronze_file fs = Some df → df ≠ [] →
  (raises (clean_and_validate clock fs).1 ↔
   ∃ r, r ∈ df ∧
     (raises (to_datetime_in (map trans_date_trans_time df)
                (trans_date_trans_time r)) ∨
      raises (to_datetime_in (map dob df) (dob r)))) ∧
  (raises (clean_and_validate clock fs).1 →
   (clean_and_validate clock fs).2 = fs).
Proof.
  intros Hfile _.
  assert (Hstage : raises (clean_and_validate clock fs).1 ↔
                   raises (normalize_types df)).
  { unfold Silver.clean_and_validate, Silver.read_parquet. rewrite Hfile.
    simpl. destruct (normalize_types df) as [df'|e] eqn:Hnorm; simpl;
      [|tauto].
    destruct (apply_validate_returns parse_datetime datetime_of_number clock 0
                df' (normalize_types_amounts parse_datetime parse_datetime_in
                       datetime_of_number parse_numeric df df' Hnorm))
      as (results & ->).
    simpl. tauto. }
  split.
  - rewrite Hstage. unfold Silver.normalize_types.
    pose proof (assign_datetime_raises trans_date_trans_time
                  set_trans_date_trans_time df) as H1.
    destruct (Silver.assign_datetime _ _ _ trans_date_trans_time _ df)
      as [df1|e] eqn:E1; simpl in *.
    + pose proof (assign_datetime_raises dob set_dob df1) as H2.
      unfold Silver.assign_datetime in E1. cbv zeta in E1.
      apply mapM_Ok_Forall2 in E1.
      rewrite (dob_kept _ _ _ E1) in H2.
      destruct (Silver.assign_datetime _ _ _ dob _ df1) as [df2|e] eqn:E2;
        simpl in *.
      * split; [tauto|]. intros (r & Hr & [Hraise|Hraise]).
        -- apply H1. eauto.
        -- apply list_elem_of_lookup in Hr as [i Hi].
           destruct (Forall2_lookup_l _ _ _ _ _ E1 Hi) as (r1 & Hi1 & Hc).
           apply H2. exists r1. split; [apply list_elem_of_lookup; eauto|].
           destruct (to_datetime_in _ (trans_date_trans_time r)) as [v|];
             simpl in Hc; [|discriminate]. injection Hc as <-. exact Hraise.
      * split; [|tauto]. intros _.
        destruct (proj1 H2 I) as (r1 & Hr1 & Hraise).
        apply list_elem_of_lookup in Hr1 as [i Hi].
        destruct (Forall2_lookup_r _ _ _ _ _ E1 Hi) as (r & Hri & Hc).
        exists r. split; [apply list_elem_of_lookup; eauto|]. right.
        destruct (to_datetime_in _ (trans_date_trans_time r)) as [v|];
          simpl in Hc; [|discriminate]. injection Hc as <-. exact Hraise.
    + split; [|tauto]. intros _.
      destruct (proj1 H1 I) as (r & Hr & Hraise).
      exists r. split; [exact Hr|]. left. exact Hraise.
  - unfold Silver.clean_and_validate.
    destruct (let* df := read_parquet fs in _) as [[md fs']|e]; simpl; tauto.
Qed.

Lemma apply_validate_lookup clock first df results i row x :
  apply_validate clock first df = Ok results →
  df !! i = Some row → results !! i = Some x →
  validate_transaction (clock (first + i)) row = Ok x.
Proof.
  revert first results i. induction df as [|r df IH];
    intros first results i H Hrow Hx; [discriminate|].
  simpl in H.
  destruct (validate_transaction (clock first) r) as [y|e] eqn:Ey;
    simpl in H; [|discriminate].
  destruct (apply_validate clock (S first) df) as [ys|e] eqn:E; simpl in H;
    [|discriminate].
  injection H as <-. destruct i as [|i]; simpl in *.
  - injection Hrow as <-. injection Hx as <-. rewrite Nat.add_0_r. exact Ey.
  - rewrite Nat.add_succ_r. apply (IH (S first) ys i E Hrow Hx).
Qed.

(** What the stage writes, row by row. *)
Lemma clean_and_validate_rows clock fs md fs' :
  clean_and_validate clock fs = (Ok md, fs') →
  ∃ df out,
    bronze_file fs = Some df ∧ fs' = Files (Some df) (Some out) ∧
    length out = length df ∧
    ∀ i o, out !! i = Some o →
      ∃ r, df !! i = Some r ∧
           converted (map trans_date_trans_time df) (map dob df) r (base o) ∧
           _silver_processed_at o = clock (length df) ∧
           validate_transaction (clock i) (base o)
           = Ok (is_valid o, violations (clock i) (base o)) ∧
           quality_issues o = join_issues (violations (clock i) (base o)).
Proof.
  unfold Silver.clean_and_validate, Silver.read_parquet, to_parquet.
  destruct (bronze_file fs) as [df|] eqn:Hfile; simpl; [|discriminate].
  destruct (normalize_types df) as [df'|e] eqn:Hnorm; simpl; [|discriminate].
  destruct (apply_validate clock 0 df') as [results|e] eqn:Hval; simpl;
    [|discriminate].
  intros [= _ <-]. exists df. eexists. split; [reflexivity|].
  split; [reflexivity|].
  pose proof (normalize_types_length parse_datetime parse_datetime_in
                datetime_of_number parse_numeric df df' Hnorm) as Hlen.
  pose proof (apply_validate_length parse_datetime datetime_of_number
                clock 0 df' results Hval) as Hlen'.
  pose proof (normalize_types_converted df df' Hnorm) as Hconv.
  rewrite (map_zip_with
             (λ r x, SilverRecord r x.1 (join_issues x.2) (clock (length df')))).
  split; [rewrite length_zip_with; lia|].
  intros i o Ho.
  apply lookup_zip_with_Some in Ho as (r' & [b issues] & -> & Hr' & Hx).
  destruct (Forall2_lookup_r _ _ _ _ _ Hconv Hr') as (r & Hr & Hc).
  exists r. simpl. split; [exact Hr|]. split; [exact Hc|].
  split; [rewrite Hlen; reflexivity|].
  pose proof (apply_validate_lookup clock 0 df' results i r' (b, issues)
                Hval Hr' Hx) as Hv.
  simpl in Hv.
  destruct (validate_transaction_violations parse_datetime datetime_of_number
              (clock i) r' b issues Hv) as [-> _].
  split; [exact Hv|reflexivity].
Qed.

Lemma map_eq_lookup {A B C} (f : A → C) (g : B → C) (l : list A) (k : list B) :
  length l = length k →
  (∀ i a b, l !! i = Some a → k !! i = Some b → f a = g b) →
  map f l = map g k.
Proof.
  revert k. induction l as [|a l IH]; intros [|b k] Hlen H;
    try discriminate; [reflexivity|].
  simpl. f_equal; [apply (H 0 a b); reflexivity|].
  apply IH; [simpl in Hlen; lia|].
  intros i a' b' Ha Hb. apply (H (S i)); assumption.
Qed.

(** X4. When the stage returns, the silver file has the rows of the bronze
    frame, all of them and in their order (valid or not), with transaction
    id, merchant and category as they were; all rows carry the same
    processing timestamp; and the bronze file is as before. *)
Theorem clean_and_validate_keeps_rows clock fs md fs' :
  clean_and_validate clock fs = (Ok md, fs') →
  ∃ df out,
    bronze_file fs = Some df ∧ fs' = Files (Some df) (Some out) ∧
    map (λ o, trans_num (base o)) out = map trans_num df ∧
    map (λ o, merchant (base o)) out = map merchant df ∧
    map (λ o, category (base o)) out = map category df ∧
    ∀ o, o ∈ out → _silver_processed_at o = clock (length df).
Proof.
  intros H.
  destruct (clean_and_validate_rows clock fs md fs' H)
    as (df & out & Hfile & -> & Hlen & Hrows).
  exists df, out. split; [exact Hfile|]. split; [reflexivity|].
  repeat split.
  1-3: apply map_eq_lookup; [exact Hlen|];
       intros i o r Ho Hr;
       destruct (Hrows i o Ho) as (r0 & Hr0 & Hc & _);
       rewrite Hr in Hr0; injection Hr0 as <-;
       destruct Hc as (H1 & H2 & H3 & _); assumption.
  intros o Ho. apply list_elem_of_lookup in Ho as [i Ho].
  destruct (Hrows i o Ho) as (_ & _ & _ & Hstamp & _). exact Hstamp.
Qed.

(** X5. Every row the stage writes is type-normalised: amount and the four
    coordinates are numbers or [nan], the transaction timestamp and the
    date of birth are instants or [NaT]. *)
Theorem clean_and_validate_normalises clock fs md fs' :
  clean_and_validate clock fs = (Ok md, fs') →
  ∃ out, silver_file fs' = Some out ∧ ∀ o, o ∈ out → normalised (base o).
Proof.
  intros H.
  destruct (clean_and_validate_rows clock fs md fs' H)
    as (df & out & Hfile & -> & Hlen & Hrows).
  exists out. split; [reflexivity|].
  intros o Ho. apply list_elem_of_lookup in Ho as [i Ho].
  destruct (Hrows i o Ho) as (r & _ & Hc & _).
  apply (converted_normalised _ _ r (base o) Hc).
Qed.

(** X6. The flag and the issue text stored with row [i] are the verdict of
    the validator on the normalised row, read at the [i]-th reading of the
    clock: is_valid is the returned flag, quality_issues is the violated
    rules joined by commas, and quality_issues is missing exactly when
    the row is valid. *)
Theorem clean_and_validate_verdicts clock fs md fs' :
  clean_and_validate clock fs = (Ok md, fs') →
  ∃ out, silver_file fs' = Some out ∧
    ∀ i o, out !! i = Some o →
      validate_transaction (clock i) (base o)
      = Ok (is_valid o, violations (clock i) (base o)) ∧
      quality_issues o = join_issues (violations (clock i) (base o)) ∧
      (is_valid o = true ↔ quality_issues o = None).
Proof.
  intros H.
  destruct (clean_and_validate_rows clock fs md fs' H)
    as (df & out & Hfile & -> & Hlen & Hrows).
  exists out. split; [reflexivity|].
  intros i o Ho. destruct (Hrows i o Ho) as (r & _ & _ & _ & Hv & Hq).
  split; [exact Hv|]. split; [exact Hq|].
  destruct (validate_transaction_violations parse_datetime datetime_of_number
              (clock i) (base o) _ _ Hv) as [_ Hb].
  rewrite Hb, Hq.
  destruct (violations (clock i) (base o)); simpl; split; congruence.
Qed.

End Stage.

Lemma clean_and_validate_keeps_rows_witness :
  ∃ md fs',
    Silver.clean_and_validate Fixture.parse_datetime
      Fixture.parse_datetime_in Fixture.datetime_of_number
      Fixture.parse_numeric Fixture.clock (Files (Some Fixture.bronze) None)
    = (Ok md, fs') ∧
    ∃ df out,
      bronze_file (Files (Some Fixture.bronze) None) = Some df ∧
      fs' = Files (Some df) (Some out) ∧
      map (λ o, trans_num (base o)) out = map trans_num df ∧
      map (λ o, merchant (base o)) out = map merchant df ∧
      map (λ o, category (base o)) out = map category df ∧
      ∀ o, o ∈ out → _silver_processed_at o = Fixture.clock (length df).
Proof.
  eexists. eexists. split; [vm_compute; reflexivity|].
  eapply (clean_and_validate_keeps_rows Fixture.parse_datetime
            Fixture.parse_datetime_in
            Fixture.datetime_of_number Fixture.parse_numeric Fixture.clock
            (Files (Some Fixture.bronze) None)).
  vm_compute. reflexivity.
Defined.

Lemma clean_and_validate_normalises_witness :
  ∃ md fs',
    Silver.clean_and_validate Fixture.parse_datetime
      Fixture.parse_datetime_in Fixture.datetime_of_number
      Fixture.parse_numeric Fixture.clock (Files (Some Fixture.bronze) None)
    = (Ok md, fs') ∧
    ∃ out, silver_file fs' = Some out ∧ ∀ o, o ∈ out → normalised (base o).
Proof.
  eexists. eexists. split; [vm_compute; reflexivity|].
  eapply (clean_and_validate_normalises Fixture.parse_datetime
            Fixture.parse_datetime_in
            Fixture.datetime_of_number Fixture.parse_numeric Fixture.clock
            (Files (Some Fixture.bronze) None)).
  vm_compute. reflexivity.
Defined.

Lemma clean_and_validate_verdicts_witness :
  ∃ md fs',
    Silver.clean_and_validate Fixture.parse_datetime
      Fixture.parse_datetime_in Fixture.datetime_of_number
      Fixture.parse_numeric Fixture.clock (Files (Some Fixture.bronze) None)
    = (Ok md, fs') ∧
    ∃ out, silver_file fs' = Some out ∧
      ∀ i o, out !! i = Some o →
        Silver.validate_transaction Fixture.parse_datetime
          Fixture.datetime_of_number (Fixture.clock i) (base o)
        = Ok (is_valid o,
              Rules.violations Fixture.parse_datetime
                Fixture.datetime_of_number (Fixture.clock i) (base o)) ∧
        quality_issues o
        = join_issues (Rules.violations Fixture.parse_datetime
                         Fixture.datetime_of_number (Fixture.clock i) (base o)) ∧
        (is_valid o = true ↔ quality_issues o = None).
Proof.
  eexists. eexists. split; [vm_compute; reflexivity|].
  eapply (clean_and_validate_verdicts Fixture.parse_datetime
            Fixture.parse_datetime_in
            Fixture.datetime_of_number Fixture.parse_numeric Fixture.clock
            (Files (Some Fixture.bronze) None)).
  vm_compute. reflexivity.
Defined.

Lemma normalize_types_idempotent_witness :
  ∃ df',
    Silver.normalize_types Fixture.parse_datetime
      Fixture.parse_datetime_in Fixture.datetime_of_number
      Fixture.parse_numeric Fixture.bronze = Ok df' ∧
    Silver.normalize_types Fixture.parse_datetime
      Fixture.parse_datetime_in Fixture.datetime_of_number
      Fixture.parse_numeric df' = Ok df'.
Proof.
  eexists. split; [vm_compute; reflexivity|].
  eapply (normalize_types_idempotent Fixture.parse_datetime
            Fixture.parse_datetime_in
            Fixture.datetime_of_number Fixture.parse_numeric Fixture.bronze).
  vm_compute. reflexivity.
Defined.

Lemma clean_and_validate_fails_iff_witness :
  bronze_file (Files (Some Fixture.two_formats) None)
  = Some Fixture.two_formats ∧
  Fixture.two_formats ≠ [] ∧
  raises (Silver.clean_and_validate Fixture.parse_datetime
            Fixture.parse_datetime_in Fixture.datetime_of_number
            Fixture.parse_numeric Fixture.clock
            (Files (Some Fixture.two_formats) None)).1 ∧
  (Silver.clean_and_validate Fixture.parse_datetime Fixture.parse_datetime_in
     Fixture.datetime_of_number Fixture.parse_numeric Fixture.clock
     (Files (Some Fixture.two_formats) None)).2
  = Files (Some Fixture.two_formats) None.
Proof.
  split; [reflexivity|]. split; [discriminate|].
  destruct (clean_and_validate_fails_iff Fixture.parse_datetime
              Fixture.parse_datetime_in Fixture.datetime_of_number
              Fixture.parse_numeric Fixture.clock
              (Files (Some Fixture.two_formats) None)
              Fixture.two_formats eq_refl ltac:(discriminate))
    as [Hiff Hfiles].
  assert (Hraise : raises (Silver.clean_and_validate Fixture.parse_datetime
                             Fixture.parse_datetime_in
                             Fixture.datetime_of_number Fixture.parse_numeric
                             Fixture.clock
                             (Files (Some Fixture.two_formats) None)).1).
  { apply Hiff. eexists. split; [right; left|]. left. vm_compute. exact I. }
  split; [exact Hraise | exact (Hfiles Hraise)].
Defined.

(** The two timestamps of [Fixture.two_formats] are dates on their own; it
    is as cells of one column that they do not convert. *)
Example two_formats_convert_alone :
  Forall (λ r, ∃ t, Silver.to_datetime Fixture.parse_datetime
                      Fixture.datetime_of_number (trans_date_trans_time r)
                    = Ok (VTime t))
         Fixture.two_formats.
Proof. repeat constructor; eexists; reflexivity. Qed.

End SilverMore.

(** ** More facts about the Gold layer *)

Module GoldMore.

Import Gold Rates GoldFacts.

#[local] Instance string_le_total : Total string_le.
Proof.
  intros a b. unfold string_le.
  destruct (String.leb_total a b) as [-> | ->]; simpl; tauto.
Qed.

#[local] Instance customer_key_le_total : Total customer_key_le.
Proof.
  intros [a1 a2] [b1 b2]. unfold customer_key_le. simpl.
  destruct (Z.lt_trichotomy a1 b1) as [H|[H|H]]; [tauto| |tauto].
  subst b1. destruct (total string_le a2 b2); tauto.
Qed.

Lemma groupby_keys {K} `{EqDecision K} (le : relation K)
    `{∀ x y, Decision (le x y)} (key : record → option K) (df : list record) :
  map fst (groupby le key df) = merge_sort le (remove_dups (omap key df)).
Proof.
  unfold groupby. rewrite map_map. simpl. apply map_id.
Qed.

Lemma elem_of_groupby_keys {K} `{EqDecision K} (le : relation K)
    `{∀ x y, Decision (le x y)} (key : record → option K) (df : list record)
    (k : K) :
  k ∈ map fst (groupby le key df) ↔ ∃ r, r ∈ df ∧ key r = Some k.
Proof.
  rewrite groupby_keys, merge_sort_Permutation, elem_of_remove_dups.
  apply list_elem_of_omap.
Qed.

Lemma NoDup_groupby_keys {K} `{EqDecision K} (le : relation K)
    `{∀ x y, Decision (le x y)} (key : record → option K) (df : list record) :
  NoDup (map fst (groupby le key df)).
Proof.
  rewrite groupby_keys, merge_sort_Permutation. apply NoDup_remove_dups.
Qed.

Lemma customer_summary_key_column (df : list record) :
  map (λ row, (Customer.customer_id row, Customer.full_name row))
      (create_customer_summary df)
  = map fst (groupby customer_key_le customer_key df).
Proof.
  unfold create_customer_summary. rewrite map_map. apply map_ext.
  intros [[c n] g]. reflexivity.
Qed.

(** X9. The customer summary has exactly one row for every pair (card
    number, full name) that occurs in the frame with both parts present:
    no pair occurs twice, every pair of a row is the pair of some record,
    every such pair of a record has its row, and the rows are in ascending
    order of card number, then name. *)
Theorem customer_summary_keys (df : list record) :
  let keys := map (λ row, (Customer.customer_id row, Customer.full_name row))
                  (create_customer_summary df) in
  NoDup keys ∧ Sorted customer_key_le keys ∧
  ∀ k, k ∈ keys ↔ ∃ r, r ∈ df ∧ customer_key r = Some k.
Proof.
  cbv zeta. rewrite customer_summary_key_column. split; [|split].
  - apply NoDup_groupby_keys.
  - rewrite groupby_keys. apply (Sorted_merge_sort customer_key_le).
  - intros k. apply elem_of_groupby_keys.
Qed.

Lemma category_analysis_Permutation (df : list record) :
  create_merchant_category_analysis df
  ≡ₚ map (λ kg, category_row kg.1 kg.2) (groupby string_le category df).
Proof.
  unfold create_merchant_category_analysis, sort_values_desc.
  apply merge_sort_Permutation.
Qed.

Lemma category_analysis_key_column (df : list record) :
  map Category.category (create_merchant_category_analysis df)
  ≡ₚ map fst (groupby string_le category df).
Proof.
  change (map Category.category (create_merchant_category_analysis df))
    with (Category.category <$> create_merchant_category_analysis df).
  rewrite category_analysis_Permutation.
  change (Category.category <$> ?l) with (map Category.category l).
  rewrite map_map. simpl. reflexivity.
Qed.

(** X10. The category analysis has exactly one row for every category that
    occurs in the frame: no category occurs twice, and a category has a
    row if and only if some record has it. *)
Theorem category_analysis_keys (df : list record) :
  let categories :=
    map Category.category (create_merchant_category_analysis df) in
  NoDup categories ∧
  ∀ c, c ∈ categories ↔ ∃ r, r ∈ df ∧ category r = Some c.
Proof.
  cbv zeta. split.
  - rewrite category_analysis_key_column. apply NoDup_groupby_keys.
  - intros c. rewrite category_analysis_key_column.
    apply elem_of_groupby_keys.
Qed.

(** *** Sums over the groups *)

Local Abbreviation column_sum := Insights.column_sum.

Lemma column_sum_Permutation (l k : list Z) :
  l ≡ₚ k → column_sum l = column_sum k.
Proof. induction 1; simpl; lia. Qed.

Lemma column_sum_map_add {A} (a b : A → Z) (l : list A) :
  column_sum (map (λ x, a x + b x)%Z l)
  = (column_sum (map a l) + column_sum (map b l))%Z.
Proof. induction l as [|x l IH]; simpl; lia. Qed.

Lemma column_sum_zero {A} (l : list A) : column_sum (map (λ _, 0%Z) l) = 0%Z.
Proof. induction l as [|x l IH]; simpl; lia. Qed.

Lemma column_sum_indicator {K} `{EqDecision K} (k0 : K) (c : Z) (l : list K) :
  NoDup l → k0 ∈ l →
  column_sum (map (λ k, if decide (k0 = k) then c else 0%Z) l) = c.
Proof.
  induction 1 as [|k l Hk Hl IH]; intros Hin; [inversion Hin|]. simpl.
  destruct (decide (k0 = k)) as [->|Hne].
  - assert (H0 : column_sum (map (λ k', if decide (k = k') then c else 0%Z) l)
                 = 0%Z).
    { clear IH Hl Hin. induction l as [|k' l IH]; simpl; [reflexivity|].
      destruct (decide (k = k')) as [->|_].
      - exfalso. apply Hk. left.
      - rewrite IH; [reflexivity|]. intros H. apply Hk. right. exact H. }
    lia.
  - apply elem_of_cons in Hin as [?|Hin]; [congruence|]. rewrite IH by exact Hin.
    lia.
Qed.

Lemma sum_over_keys {K} `{EqDecision K} (key : record → option K)
    (f : record → Z) (keys : list K) (df : list record) :
  NoDup keys →
  (∀ r k, r ∈ df → key r = Some k → k ∈ keys) →
  column_sum
    (map (λ k, column_sum (map f (filter (λ r, key r = Some k) df))) keys)
  = column_sum (map f (filter (λ r, is_Some (key r)) df)).
Proof.
  intros Hnd. induction df as [|r df IH]; intros Hkeys.
  - simpl. apply column_sum_zero.
  - assert (IH' : column_sum
             (map (λ k, column_sum
                          (map f (filter (λ r, key r = Some k) df))) keys)
           = column_sum (map f (filter (λ r, is_Some (key r)) df))).
    { apply IH. intros r' k Hr'. apply Hkeys. right. exact Hr'. }
    rewrite (filter_cons (λ r, is_Some (key r))).
    destruct (key r) as [k0|] eqn:Hkey.
    + rewrite decide_True by eauto. simpl. rewrite <- IH'.
      transitivity
        (column_sum
           (map (λ k, (if decide (k0 = k) then f r else 0)
                      + column_sum
                          (map f (filter (λ r, key r = Some k) df)))%Z keys)).
      * f_equal. apply map_ext. intros k.
        rewrite filter_cons. rewrite Hkey.
        destruct (decide (k0 = k)) as [->|Hne].
        -- rewrite decide_True by reflexivity. reflexivity.
        -- rewrite decide_False by congruence. reflexivity.
      * rewrite column_sum_map_add, (column_sum_indicator k0 (f r) keys Hnd);
          [reflexivity|]. apply (Hkeys r k0); [left|exact Hkey].
    + rewrite decide_False by (intros [? ?]; discriminate).
      rewrite <- IH'. f_equal. apply map_ext. intros k.
      rewrite filter_cons, Hkey. rewrite decide_False by discriminate.
      reflexivity.
Qed.

Lemma count_as_sum {A} (col : list (option A)) :
  count col = column_sum (map (λ x, if x is Some _ then 1 else 0)%Z col).
Proof.
  unfold count, present. induction col as [|[a|] col IH];
    [reflexivity| |];
    cbn [omap list_omap id length map column_sum fold_right];
    rewrite ?Nat2Z.inj_succ; unfold column_sum in IH; lia.
Qed.

Lemma sum_int_as_sum (col : list (option Z)) :
  sum_int col = column_sum (map (default 0%Z) col).
Proof.
  unfold sum_int, present. induction col as [|[a|] col IH];
    [reflexivity| |];
    cbn [omap list_omap id map column_sum fold_right default];
    unfold column_sum in IH; lia.
Qed.

(** A reduction that is a sum over the rows, summed over the groups, is
    that reduction of the rows that have a key. *)
Lemma groupby_total {K} `{EqDecision K} (le : relation K)
    `{∀ x y, Decision (le x y)} (key : record → option K)
    (F : list record → Z) (f : record → Z) (df : list record) :
  (∀ g, F g = column_sum (map f g)) →
  column_sum (map (λ kg, F kg.2) (groupby le key df))
  = F (filter (λ r, is_Some (key r)) df).
Proof.
  intros HF. rewrite HF. unfold groupby. rewrite map_map. simpl.
  rewrite <- (sum_over_keys key f (merge_sort le (remove_dups (omap key df)))).
  - f_equal. apply map_ext. intros k. apply HF.
  - rewrite merge_sort_Permutation. apply NoDup_remove_dups.
  - intros r k Hr Hk. rewrite merge_sort_Permutation.
    apply elem_of_remove_dups, list_elem_of_omap. eauto.
Qed.

Lemma count_trans_num_sum (g : list record) :
  count (map trans_num g)
  = column_sum (map (λ r, if trans_num r is Some _ then 1 else 0)%Z g).
Proof. rewrite count_as_sum, map_map. reflexivity. Qed.

Lemma sum_is_fraud_sum (g : list record) :
  sum_int (map is_fraud g) = column_sum (map (λ r, default 0%Z (is_fraud r)) g).
Proof. rewrite sum_int_as_sum, map_map. reflexivity. Qed.

Lemma category_totals (df : list record) :
  column_sum (map Category.total_transactions
                  (create_merchant_category_analysis df))
  = count (map trans_num (filter (λ r, is_Some (category r)) df)) ∧
  column_sum (map Category.fraud_count (create_merchant_category_analysis df))
  = sum_int (map is_fraud (filter (λ r, is_Some (category r)) df)).
Proof.
  split.
  - rewrite (column_sum_Permutation _
               (map Category.total_transactions
                    (map (λ kg, category_row kg.1 kg.2)
                         (groupby string_le category df)))).
    + rewrite map_map. simpl.
      apply (groupby_total string_le category
               (λ g, count (map trans_num g))
               (λ r, if trans_num r is Some _ then 1 else 0)%Z),
        count_trans_num_sum.
    + apply (fmap_Permutation Category.total_transactions),
        category_analysis_Permutation.
  - rewrite (column_sum_Permutation _
               (map Category.fraud_count
                    (map (λ kg, category_row kg.1 kg.2)
                         (groupby string_le category df)))).
    + rewrite map_map. simpl.
      apply (groupby_total string_le category
               (λ g, sum_int (map is_fraud g))
               (λ r, default 0%Z (is_fraud r))),
        sum_is_fraud_sum.
    + apply (fmap_Permutation Category.fraud_count),
        category_analysis_Permutation.
Qed.

(** X11. No transaction is counted twice or lost by the grouping: the
    total_transactions of the category rows add up to the number of records
    that have a category and a transaction id, their fraud_count to the sum
    of the fraud flags of the records that have a category; and likewise
    for the customer rows and the records that have a card number and a
    full name. *)
Theorem transactions_conserved (df : list record) :
  column_sum (map Category.total_transactions
                  (create_merchant_category_analysis df))
  = count (map trans_num (filter (λ r, is_Some (category r)) df)) ∧
  column_sum (map Category.fraud_count (create_merchant_category_analysis df))
  = sum_int (map is_fraud (filter (λ r, is_Some (category r)) df)) ∧
  column_sum (map Customer.total_transactions (create_customer_summary df))
  = count (map trans_num (filter (λ r, is_Some (customer_key r)) df)) ∧
  column_sum (map Customer.fraud_count (create_customer_summary df))
  = sum_int (map is_fraud (filter (λ r, is_Some (customer_key r)) df)).
Proof.
  destruct (category_totals df) as [H1 H2].
  split; [exact H1|]. split; [exact H2|].
  unfold create_customer_summary. rewrite !map_map. simpl. split.
  - apply (groupby_total customer_key_le customer_key
               (λ g, count (map trans_num g))
               (λ r, if trans_num r is Some _ then 1 else 0)%Z),
        count_trans_num_sum.
  - apply (groupby_total customer_key_le customer_key
               (λ g, sum_int (map is_fraud g))
               (λ r, default 0%Z (is_fraud r))),
        sum_is_fraud_sum.
Qed.

(** *** Dates of a customer *)

Lemma fold_min_max (t : Z) (ts : list Z) :
  (fold_right Z.min t ts <= t <= fold_right Z.max t ts)%Z.
Proof. induction ts as [|x ts IH]; simpl; lia. Qed.

(** X12. In every customer row the first transaction date is not after the
    last one and the lifetime is the whole number of days between them,
    never negative; the three are missing together, when no record of the
    customer has a timestamp. *)
Theorem customer_lifetime (df : list record) (row : Customer.row) :
  row ∈ create_customer_summary df →
  match Customer.first_transaction_date row,
        Customer.last_transaction_date row with
  | Some a, Some b =>
      (a <= b)%Z ∧
      ∃ d, Customer.customer_lifetime_days row = Some d ∧ (0 <= d)%Z ∧
           (d * ns_per_day <= b - a < (d + 1) * ns_per_day)%Z
  | None, None => Customer.customer_lifetime_days row = None
  | _, _ => False
  end.
Proof.
  unfold create_customer_summary. intros Hrow.
  apply list_elem_of_In, in_map_iff in Hrow as ([k g] & <- & _). simpl.
  unfold min_date, max_date.
  destruct (present (map trans_date_trans_time g)) as [|t ts]; [reflexivity|].
  pose proof (fold_min_max t ts) as [Hmin Hmax].
  set (a := fold_right Z.min t ts) in *. set (b := fold_right Z.max t ts) in *.
  split; [lia|]. exists ((b - a) / ns_per_day)%Z. split; [reflexivity|].
  assert (Hpos : (0 < ns_per_day)%Z) by reflexivity.
  pose proof (Z.div_mod (b - a) ns_per_day ltac:(lia)) as Hdm.
  pose proof (Z.mod_pos_bound (b - a) ns_per_day Hpos) as Hmod.
  split; [apply Z.div_pos; lia|]. nia.
Qed.

Lemma customer_lifetime_witness :
  ∃ row,
    row ∈ create_customer_summary Fixture.silver ∧
    match Customer.first_transaction_date row,
          Customer.last_transaction_date row with
    | Some a, Some b =>
        (a <= b)%Z ∧
        ∃ d, Customer.customer_lifetime_days row = Some d ∧ (0 <= d)%Z ∧
             (d * ns_per_day <= b - a < (d + 1) * ns_per_day)%Z
    | None, None => Customer.customer_lifetime_days row = None
    | _, _ => False
    end.
Proof.
  eexists. split; [vm_compute; left|].
  apply (customer_lifetime Fixture.silver). vm_compute. left.
Defined.

(** *** The stage *)






(** X14. Every row of the two written tables comes from a valid record:
    a customer row has the card number and name of some record of the
    silver file with is_valid = true, a category row the category of such
    a record. *)
Theorem create_analytical_tables_valid_only (now : Z) (fs : files)
    (df : list record) :
  silver_file fs = Some df →
  ∃ cs cats,
    (create_analytical_tables now fs).2 = Files (Some df) (Some cs) (Some cats) ∧
    (∀ row, row ∈ cs →
       ∃ r, r ∈ df ∧ is_valid r = true ∧
            customer_key r
            = Some (Customer.customer_id row, Customer.full_name row)) ∧
    (∀ row, row ∈ cats →
       ∃ r, r ∈ df ∧ is_valid r = true ∧
            category r = Some (Category.category row)).
Proof.
  intros Hfile. unfold create_analytical_tables, read_parquet.
  rewrite Hfile. simpl. eexists. eexists. split; [reflexivity|]. split.
  - intros row Hrow.
    assert (Hk : (Customer.customer_id row, Customer.full_name row)
                 ∈ map (λ row, (Customer.customer_id row, Customer.full_name row))
                       (create_customer_summary
                          (filter (λ r, is_valid r = true) df))).
    { apply list_elem_of_In, in_map_iff. exists row. split; [reflexivity|].
      apply list_elem_of_In, Hrow. }
    rewrite customer_summary_key_column in Hk.
    apply elem_of_groupby_keys in Hk as (r & Hr & Hkey).
    apply list_elem_of_filter in Hr as [Hv Hr]. eauto.
  - intros row Hrow.
    assert (Hk : Category.category row
                 ∈ map Category.category
                       (create_merchant_category_analysis
                          (filter (λ r, is_valid r = true) df))).
    { apply list_elem_of_In, in_map_iff. exists row. split; [reflexivity|].
      apply list_elem_of_In, Hrow. }
    rewrite category_analysis_key_column in Hk.
    apply elem_of_groupby_keys in Hk as (r & Hr & Hkey).
    apply list_elem_of_filter in Hr as [Hv Hr]. eauto.
Qed.

Lemma create_analytical_tables_valid_only_witness :
  ∃ cs cats,
    (create_analytical_tables 0
       (Files (Some [Fixture.rejected; Fixture.untracked]) None None)).2
    = Files (Some [Fixture.rejected; Fixture.untracked]) (Some cs) (Some cats) ∧
    length cs = 1 ∧ length cats = 1.
Proof.
  destruct (create_analytical_tables_valid_only 0
              (Files (Some [Fixture.rejected; Fixture.untracked]) None None)
              [Fixture.rejected; Fixture.untracked] eq_refl)
    as (cs & cats & H & _).
  exists cs, cats. split; [exact H|].
  vm_compute in H. injection H as <- <-. split; reflexivity.
Defined.

End GoldMore.

(** ** Facts about the insights *)

Module InsightsFacts.

Import Gold Rates Insights.

Lemma rate_geb_total (a b : pyfloat) : rate_geb a b = true ∨ rate_geb b a = true.
Proof.
  destruct a as [p|[|]|], b as [q|[|]|]; simpl; try tauto.
  destruct (Qlt_le_dec p q) as [H|H].
  - right. apply Qle_bool_iff, Qlt_le_weak, H.
  - left. apply Qle_bool_iff, H.
Qed.

Lemma rate_geb_trans (a b c : pyfloat) :
  rate_geb a b = true → rate_geb b c = true → rate_geb a c = true.
Proof.
  destruct a as [p|[|]|], b as [q|[|]|], c as [r|[|]|]; simpl;
    try tauto; try discriminate.
  rewrite !Qle_bool_iff. intros H1 H2. apply (Qle_trans _ q); assumption.
Qed.

#[local] Instance riskier_total : Total riskier.
Proof.
  intros a b. unfold riskier.
  destruct (rate_geb_total (Category.fraud_rate a) (Category.fraud_rate b))
    as [-> | ->]; simpl; tauto.
Qed.

#[local] Instance riskier_trans : Transitive riskier.
Proof.
  intros a b c. unfold riskier. rewrite !Is_true_true.
  apply rate_geb_trans.
Qed.

(** The rows [nlargest] keeps and the rows it leaves. *)
Lemma nlargest_split (n : nat) (table : list Category.row) :
  ∃ rest,
    nlargest n table ++ rest ≡ₚ table ∧
    length (nlargest n table) = Nat.min n (length table) ∧
    StronglySorted riskier (nlargest n table) ∧
    ∀ a b, a ∈ nlargest n table → b ∈ rest → riskier a b.
Proof.
  unfold nlargest. set (sorted := merge_sort riskier table).
  assert (Hs : StronglySorted riskier sorted)
    by apply (StronglySorted_merge_sort riskier).
  assert (Hp : sorted ≡ₚ table) by apply merge_sort_Permutation.
  exists (drop n sorted). rewrite take_drop. split; [exact Hp|].
  split; [rewrite length_take, (Permutation_length Hp); reflexivity|].
  rewrite <- (take_drop n sorted) in Hs. split.
  - apply (StronglySorted_app_1_l _ _ _ Hs).
  - intros a b Ha Hb. apply (StronglySorted_app_1_elem_of _ _ _ _ _ Hs Ha Hb).
Qed.

(** X15. With both gold tables in place [generate_insights] returns and
    writes the report. The ranking of the report lists min(5, number of
    categories) rows of the category analysis, by descending fraud rate,
    and no row that is left out has a higher fraud rate than a listed
    one. *)
Theorem generate_insights_ranking (fs : files) (cs : list Customer.row)
    (table : list Category.row) :
  customer_summary_file (tables fs) = Some cs →
  category_analysis_file (tables fs) = Some table →
  ∃ top rest res,
    generate_insights fs
    = (Ok res, Files (tables fs) (Some (Report (map ranking_line top) res))) ∧
    top ++ rest ≡ₚ table ∧
    length top = Nat.min 5 (length table) ∧
    StronglySorted riskier top ∧
    ∀ a b, a ∈ top → b ∈ rest → riskier a b.
Proof.
  intros Hcs Htable.
  destruct (nlargest_split 5 table) as (rest & Hp & Hlen & Hs & Hle).
  exists (nlargest 5 table), rest. eexists.
  unfold generate_insights. rewrite Hcs, Htable.
  split; [reflexivity|]. repeat split; assumption.
Qed.



(** X17. Gold followed by Insights, on a silver file without a valid
    record: nothing raises; [generate_insights] returns 0 customers, 0
    transactions and a fraud rate that is not a number (0 / 0), and the
    ranking of the report is empty. *)
Theorem insights_without_valid_rows (now : Z) (gfs : Gold.files)
    (df : list record) :
  silver_file gfs = Some df →
  Forall (λ r, is_valid r = false) df →
  ∃ md gfs',
    create_analytical_tables now gfs = (Ok md, gfs') ∧
    generate_insights (Files gfs' None)
    = (Ok (MkInsights 0 0 FNaN),
       Files gfs' (Some (Report [] (MkInsights 0 0 FNaN)))).
Proof.
  intros Hfile Hdf. unfold create_analytical_tables, read_parquet.
  rewrite Hfile, (GoldFacts.filter_none_valid df Hdf).
  eexists. eexists. split; reflexivity.
Qed.

Lemma generate_insights_ranking_witness :
  ∃ top rest res,
    generate_insights
      (Files (Gold.Files None (Some [])
                (Some (create_merchant_category_analysis Fixture.silver)))
             None)
    = (Ok res,
       Files (Gold.Files None (Some [])
                (Some (create_merchant_category_analysis Fixture.silver)))
             (Some (Report (map ranking_line top) res))) ∧
    top ++ rest ≡ₚ create_merchant_category_analysis Fixture.silver ∧
    length top
    = Nat.min 5 (length (create_merchant_category_analysis Fixture.silver)) ∧
    StronglySorted riskier top ∧
    ∀ a b, a ∈ top → b ∈ rest → riskier a b.
Proof.
  apply (generate_insights_ranking
           (Files (Gold.Files None (Some [])
                     (Some (create_merchant_category_analysis Fixture.silver)))
                  None) []
           (create_merchant_category_analysis Fixture.silver));
    reflexivity.
Defined.



Lemma insights_without_valid_rows_witness :
  ∃ md gfs',
    create_analytical_tables 0 (Gold.Files (Some [Fixture.rejected]) None None)
    = (Ok md, gfs') ∧
    generate_insights (Files gfs' None)
    = (Ok (MkInsights 0 0 FNaN),
       Files gfs' (Some (Report [] (MkInsights 0 0 FNaN)))).
Proof.
  apply (insights_without_valid_rows 0
           (Gold.Files (Some [Fixture.rejected]) None None)
           [Fixture.rejected] eq_refl).
  repeat constructor.
Defined.

(** The overall rate is a binary64 number: one fraud in three transactions
    does not give 100 / 3. *)
Example overall_fraud_rate_is_rounded :
  ∃ q, times_100 (true_divide 1 3) = FNum q ∧ ¬ (q == 100 # 3)%Q ∧
       (Qabs (q - (100 # 3)) <= 1 # 10000000000000)%Q.
Proof.
  eexists. split; [vm_compute; reflexivity|].
  split; vm_compute; discriminate.
Qed.

(** The metrics of the report on the frame of the Gold tests: three
    customers, five transactions, two of them fraud. *)
Example generate_insights_fixture :
  (generate_insights
     (Files (create_analytical_tables 0
               (Gold.Files (Some Fixture.silver) None None)).2 None)).1
  = Ok (MkInsights 3 5 (FNum 40)).
Proof. vm_compute. reflexivity. Qed.

End InsightsFacts.
